(** * Enterprise Accelerator notebooks: the NDVI classification pipeline

    A shallow embedding of the Python code shown in the notebooks
    ([get_ndvi_tseries], the two [get_field_class] variants, [classify_ndvi],
    [run_batch_field_model] and the [as_completed] collection loop) together
    with the properties the specification states about it.

    Conventions.
    - Reflectances, index values and Unix timestamps are exact rationals
      ([Q]); the code computes them in IEEE double precision, so every
      numeric statement below is about the exact-arithmetic reading.
    - A calendar day is its proleptic Gregorian ordinal (the value of
      [datetime.toordinal()]), an integer.
    - The vendor services (scene search, same-day mosaicking, object storage)
      and the pickled classifier are parameters of the development.
    - Local paths are compared as they are written: the file system is
      one whose files and directories are named by normalized paths, with
      no symbolic links, and the statements that depend on how a path
      resolves are about normalized names. *)

From Stdlib Require Import QArith Lqa Lia Ascii String DecimalString.
From stdpp Require Import gmap strings list sorting.

Open Scope Z_scope.

(** ** Python exceptions *)

(** The exception classes the modelled code can raise.  None of them is
    defined by the repository: they come from the interpreter and the
    libraries ([ValueError] from the vendor's scene collection, scipy,
    numpy and pandas, [KeyError] from dict lookup,
    [ClientError] from boto3, [NotFoundError] from the storage client,
    [FileNotFoundError], [FileExistsError] and [IsADirectoryError] from
    the operating system, [JSONDecodeError] from json.loads, [RemoteError]
    for a failed call to the scene catalog).  [LoadFailure] stands for what
    [joblib.load] raises on a file that does not unpickle: the unpickler
    raises [KeyError], [EOFError], [pickle.UnpicklingError], [ValueError]
    and others as the bytes have it, and the class is not modelled. *)
Inductive exn : Type :=
  | ValueError (msg : string)
  | KeyError (key : string)
  | ClientError (bucket key : string)
  | NotFoundError (key : string)
  | FileNotFoundError (path : string)
  | FileExistsError (path : string)
  | IsADirectoryError (path : string)
  | JSONDecodeError
  | LoadFailure (path : string)
  | RemoteError (msg : string).

(** [type(e).__name__], where the model fixes the class. *)
Definition exn_name (e : exn) : option string :=
  match e with
  | ValueError _ => Some "ValueError"
  | KeyError _ => Some "KeyError"
  | ClientError _ _ => Some "ClientError"
  | NotFoundError _ => Some "NotFoundError"
  | FileNotFoundError _ => Some "FileNotFoundError"
  | FileExistsError _ => Some "FileExistsError"
  | IsADirectoryError _ => Some "IsADirectoryError"
  | JSONDecodeError => Some "JSONDecodeError"
  | LoadFailure _ => None
  | RemoteError _ => Some "RemoteError"
  end.

(** ["%d" % n] *)
Definition py_decimal (n : nat) : string := NilEmpty.string_of_uint (Nat.to_uint n).

(** ** Dates *)

Module Calendar.

(** datetime.py: [_is_leap], [_days_before_year], [_days_in_month],
    [_days_before_month], [_ymd2ord]. *)
Definition is_leap (y : Z) : bool :=
  (y mod 4 =? 0) && (negb (y mod 100 =? 0) || (y mod 400 =? 0)).

Definition days_before_year (y : Z) : Z :=
  let y' := y - 1 in y' * 365 + y' / 4 - y' / 100 + y' / 400.

Definition days_in_month (y m : Z) : Z :=
  if m =? 2 then (if is_leap y then 29 else 28)
  else if (m =? 4) || (m =? 6) || (m =? 9) || (m =? 11) then 30
  else 31.

Definition days_before_month (y m : Z) : Z :=
  foldr Z.add 0 (map (fun k => days_in_month y (Z.of_nat k)) (seq 1 (Z.to_nat m - 1))).

Definition ymd2ord (y m d : Z) : Z :=
  days_before_year y + days_before_month y m + d.

(** [datetime(1970, 1, 1).toordinal()] *)
Definition epoch : Z := 719163.

(** [datetime.strptime(date, "%Y-%m-%d").timestamp()] for the day with
    ordinal [d]: seconds since the epoch of that day's midnight.  The
    datetime is naive; the process's zone is taken to be UTC. *)
Definition timestamp (d : Z) : Q := inject_Z (86400 * (d - epoch)).

(** [timedelta(days=6)] *)
Definition step_days : Z := 6.

(** The defaults of [get_ndvi_tseries]: "2019-04-01" and "2019-10-01". *)
Definition default_start : Z := ymd2ord 2019 4 1.
Definition default_end : Z := ymd2ord 2019 10 1.

End Calendar.

(** ** numpy *)

(** [np.arange(start, stop, step)] for a positive step: the
    [ceil((stop - start) / step)] values [start + i * step]. *)
Definition arange_len (start stop step : Z) : nat :=
  Z.to_nat ((stop - start + step - 1) / step).

Definition np_arange (start stop step : Z) : list Z :=
  map (fun i => start + Z.of_nat i * step) (seq 0 (arange_len start stop step)).

(** An element of a [numpy.ma.MaskedArray]: the stored datum and its mask
    bit ([true] = invalid).  The datum stays readable through [.data]
    whatever the mask says. *)
Record mval : Type := MVal { m_data : Q; m_mask : bool }.

(** A float that may be undefined (NaN or infinite). *)
Inductive pyfloat : Type :=
  | Finite (q : Q)
  | Undefined.

Definition is_finite (f : pyfloat) : bool :=
  match f with Finite _ => true | Undefined => false end.

(** The arrays of the pipeline, outermost axis first. *)
Abbreviation band := (list (list mval)).        (* (y, x) *)
Abbreviation image := (list band).              (* (band, y, x) *)
Abbreviation stack := (list image).             (* (day, band, y, x) *)

(** Element-wise lifting of a binary operation to two arrays of the same
    shape, for arrays of rank 2, 3 and 4. *)
Definition ew2 {A B C} (f : A -> B -> C) : list (list A) -> list (list B) -> list (list C) :=
  zip_with (zip_with f).
Definition ew3 {A B C} (f : A -> B -> C) :
  list (list (list A)) -> list (list (list B)) -> list (list (list C)) :=
  zip_with (ew2 f).
Definition ew4 {A B C} (f : A -> B -> C) :
  list (list (list (list A))) -> list (list (list (list B))) -> list (list (list (list C))) :=
  zip_with (ew3 f).

(** [a[i, j]], [a[t, i, j]] and [a[t, b, i, j]], when the index is in
    range. *)
Definition at2 {A} (a : list (list A)) (i j : nat) : option A :=
  match a !! i with
  | Some row => row !! j
  | None => None
  end.
Definition at3 {A} (a : list (list (list A))) (t i j : nat) : option A :=
  match a !! t with
  | Some plane => at2 plane i j
  | None => None
  end.
Definition at4 {A} (a : list (list (list (list A)))) (t b i j : nat) : option A :=
  match a !! t with
  | Some img => at3 img b i j
  | None => None
  end.

(** A stack of shape [(T, B, H, W)]: numpy arrays are rectangular. *)
Definition band_shape (H W : nat) (b : band) : Prop :=
  length b = H /\ Forall (fun row => length row = W) b.
Definition image_shape (B H W : nat) (img : image) : Prop :=
  length img = B /\ Forall (band_shape H W) img.
Definition has_shape (T B H W : nat) (s : stack) : Prop :=
  length s = T /\ Forall (image_shape B H W) s.

(** [stack.data] and [stack.mask] *)
Definition ma_data (s : stack) : list (list (list (list Q))) :=
  map (map (map (map m_data))) s.
Definition ma_mask (s : stack) : list (list (list (list bool))) :=
  map (map (map (map m_mask))) s.

(** [stack.mask = m]: the data stay, the mask is replaced. *)
Definition set_mask (s : stack) (m : list (list (list (list bool)))) : stack :=
  ew4 (fun v b => MVal (m_data v) b) s m.

(** [stack[:, k]] for a non-negative [k], and [stack[:, -1]].  The stack is
    always requested with the three bands red, nir and cloud_mask, so both
    indices are in range; on a short band axis numpy raises where these
    return the empty band. *)
Definition take_band (k : nat) (s : stack) : list band :=
  map (fun img => nth k img []) s.
Definition take_last_band (s : stack) : list band :=
  map (fun img => default [] (last img)) s.

(** [stack.shape[1]]: the length of the band axis.  (For a stack of zero
    days numpy still reports the requested band count; the repeat count is
    then applied to nothing.) *)
Definition shape1 (s : stack) : nat :=
  match s with
  | [] => 3%nat
  | img :: _ => length img
  end.

(** [a[:, np.newaxis]] and [np.repeat(a, n, axis=1)]. *)
Definition newaxis1 {A} (a : list A) : list (list A) := map (fun x => [x]) a.
Definition np_repeat1 {A} (a : list (list A)) (n : nat) : list (list A) :=
  map (fun row => concat (map (replicate n) row)) a.

(** Masked arithmetic (numpy/ma/core.py).  [_MaskedBinaryOperation]: the
    result is masked where either operand is, and keeps the first operand's
    datum there.  [_DomainedBinaryOperation] with [_DomainSafeDivide]
    additionally masks a zero denominator. *)
Definition ma_sub (a b : mval) : mval :=
  let m := m_mask a || m_mask b in
  MVal (if m then m_data a else (m_data a - m_data b)%Q) m.

Definition ma_add (a b : mval) : mval :=
  let m := m_mask a || m_mask b in
  MVal (if m then m_data a else (m_data a + m_data b)%Q) m.

Definition ma_div (a b : mval) : mval :=
  let m := Qeq_bool (m_data b) 0 || m_mask a || m_mask b in
  MVal (if m then m_data a else (m_data a / m_data b)%Q) m.

(** Stable insertion sort by a rational key (the order [np.sort] and
    [np.argsort(kind="mergesort")] produce). *)
Fixpoint insert_by {A} (key : A -> Q) (x : A) (l : list A) : list A :=
  match l with
  | [] => [x]
  | y :: l' => if Qle_bool (key x) (key y) then x :: l else y :: insert_by key x l'
  end.

Definition sort_by {A} (key : A -> Q) (l : list A) : list A :=
  foldr (insert_by key) [] l.

(** The unmasked data of a list of masked values ([a.compressed()]). *)
Definition compressed (l : list mval) : list Q :=
  map m_data (filter (fun v => m_mask v = false) l).

(** [np.ma.median] along one (merged) axis, numpy/ma/extras.py [_median]:
    with [counts] unmasked values sorted in front, [h = counts // 2], the
    result is the mean of the entries [h - 1] and [h], the former replaced
    by the latter for an odd count; it is masked when nothing is unmasked.
    (The datum numpy leaves under that mask is an artefact of the sort and
    is never read; it is 0 here.) *)
Definition ma_median (l : list mval) : mval :=
  let asorted := sort_by id (compressed l) in
  let counts := length asorted in
  let h := (counts / 2)%nat in
  match asorted with
  | [] => MVal 0 true
  | _ =>
      let high := nth h asorted 0%Q in
      let low := if Nat.odd counts then high else nth (h - 1) asorted 0%Q in
      MVal ((low + high) / 2) false
  end.

(** [np.ma.median(ndvi, axis=[1, 2])]: both spatial axes are merged and
    reduced, one masked scalar per day. *)
Definition ma_median_12 (a : list (list (list mval))) : list mval :=
  map (fun day => ma_median (concat day)) a.

(** [a[m]] for a boolean array [m] of the length of [a]. *)
Fixpoint bool_index {A} (a : list A) (m : list bool) : list A :=
  match a, m with
  | x :: a', b :: m' => if b then x :: bool_index a' m' else bool_index a' m'
  | _, _ => []
  end.

(** Number of masked, and of valid, entries of a one-dimensional masked
    array. *)
Definition count_masked (ts : list mval) : nat :=
  length (filter (fun v => m_mask v = true) ts).
Definition count_valid (ts : list mval) : nat :=
  length (filter (fun v => m_mask v = false) ts).

(** ** scipy.interpolate.interp1d, kind="linear" *)

Record interp1d_obj : Type := Interp1d { ip_x : list Q; ip_y : list Q }.

(** The constructor, for one-dimensional [x] and [y], in the order of its
    checks: [_Interpolator1D._set_yi] refuses arrays of different lengths;
    the samples are sorted by abscissa ([assume_sorted=False]);
    [_reshape_yi] reshapes [y] to [(len(y), -1)], which numpy refuses for
    an empty array; fewer than [minval] samples are refused.  scipy has
    used both 2 and 1 as the bound [minval] of the linear kind, so it is a
    parameter. *)
Definition interp1d (minval : nat) (x y : list Q) : exn + interp1d_obj :=
  let pts := sort_by fst (zip x y) in
  if negb (length x =? length y)%nat then
    inl (ValueError "x and y arrays must be equal in length along interpolation axis.")
  else if (length y =? 0)%nat then
    inl (ValueError "cannot reshape array of size 0 into shape (0,newaxis)")
  else if (length x <? minval)%nat then
    inl (ValueError ("x and y arrays must have at least " +:+ py_decimal minval +:+ " entries"))
  else inr (Interp1d (map fst pts) (map snd pts)).

(** [np.searchsorted(xs, v)] on a sorted array: the first index whose
    entry is not below [v]. *)
Fixpoint searchsorted (xs : list Q) (v : Q) : nat :=
  match xs with
  | [] => 0
  | x :: xs' => if Qle_bool v x then 0 else S (searchsorted xs' v)
  end.

(** [a.clip(lo, hi)] is [minimum(maximum(a, lo), hi)]. *)
Definition np_clip (a lo hi : Z) : Z := Z.min (Z.max a lo) hi.

(** [l[i]] with Python's negative indices. *)
Definition getitem (l : list Q) (i : Z) : Q :=
  nth (Z.to_nat (if i <? 0 then Z.of_nat (length l) + i else i)) l 0%Q.

(** Float division: a zero divisor gives NaN or an infinity. *)
Definition fdiv (a b : Q) : pyfloat :=
  if Qeq_bool b 0 then Undefined else Finite (a / b).

(** [interp1d._call_linear] at one abscissa, in exact arithmetic (the
    double-precision result can differ from it in the last place).  With
    [fill_value="extrapolate"] and [bounds_error=False] no bounds check
    follows: outside the samples the first or last segment is prolonged. *)
Definition call_linear (f : interp1d_obj) (x_new : Q) : pyfloat :=
  let x_new_indices :=
    np_clip (Z.of_nat (searchsorted (ip_x f) x_new)) 1 (Z.of_nat (length (ip_x f)) - 1) in
  let lo := x_new_indices - 1 in
  let hi := x_new_indices in
  let x_lo := getitem (ip_x f) lo in
  let x_hi := getitem (ip_x f) hi in
  let y_lo := getitem (ip_y f) lo in
  let y_hi := getitem (ip_y f) hi in
  match fdiv (y_hi - y_lo) (x_hi - x_lo) with
  | Finite slope => Finite (slope * (x_new - x_lo) + y_lo)
  | Undefined => Undefined
  end.

(** ** JSON values *)

#[warnings="-register-all"]
Inductive json : Type :=
  | JNull
  | JBool (b : bool)
  | JNum (q : Q)
  | JStr (s : string)
  | JArr (items : list json)
  | JObj (members : list (string * json)).

(** ** The time-series builder *)

(** What the catalog knows of a scene: its acquisition day and its raster
    (bands red, nir, cloud_mask over the geometry's pixel grid). *)
Record scene : Type := Scene { sc_date : Z; sc_raster : image }.

(** Source lines [cmask = np.repeat((stack[:,-1].data==1)[:, np.newaxis],
    stack.shape[1], axis=1)] and [stack.mask = (stack.mask) | cmask]. *)
Definition cloud_flag : Q := 1.

Definition cmask (s : stack) : list (list (list (list bool))) :=
  np_repeat1
    (newaxis1 (map (map (map (fun v => Qeq_bool (m_data v) cloud_flag))) (take_last_band s)))
    (shape1 s).

Definition mask_clouds (s : stack) : stack :=
  set_mask s (ew4 orb (ma_mask s) (cmask s)).

(** [ndvi = (stack[:,1] - stack[:,0])/(stack[:,1] + stack[:,0])] *)
Definition compute_ndvi (s : stack) : list (list (list mval)) :=
  ew3 ma_div (ew3 ma_sub (take_band 1 s) (take_band 0 s))
             (ew3 ma_add (take_band 1 s) (take_band 0 s)).

(** Cloud masking, index and [ndvi_ts = np.ma.median(ndvi, axis=[1,2])]:
    the per-day aggregated index series of a stack. *)
Definition index_series (s : stack) : list mval :=
  ma_median_12 (compute_ndvi (mask_clouds s)).

(** [s2] is [s1] with more pixels flagged as cloud: day by day the red and
    nir bands are the same, and the cloud band holds the flag value
    wherever it did before (its own mask bits unchanged). *)
Definition more_cloud_px (p1 p2 : mval) : Prop :=
  m_mask p1 = m_mask p2
  /\ (Qeq_bool (m_data p1) cloud_flag = true -> Qeq_bool (m_data p2) cloud_flag = true).
Definition more_cloud_image (img1 img2 : image) : Prop :=
  exists red nir c1 c2,
    img1 = [red; nir; c1] /\ img2 = [red; nir; c2]
    /\ Forall2 (Forall2 more_cloud_px) c1 c2.
Definition more_clouds (s1 s2 : stack) : Prop := Forall2 more_cloud_image s1 s2.

(** ** The array code, pixel by pixel *)

(** The bits [stack[:,-1].data == 1] of one cloud band. *)
Definition cloud_bits (c : band) : list (list bool) :=
  map (map (fun v => Qeq_bool (m_data v) cloud_flag)) c.

(** What the assignment to [stack.mask] makes of one pixel, given the
    pixel of the cloud band above it. *)
Definition mask_pixel (v cv : mval) : mval :=
  MVal (m_data v) (m_mask v || Qeq_bool (m_data cv) cloud_flag).

(** The index of one pixel, from its (masked) nir and red values. *)
Definition ndvi_pixel (n r : mval) : mval := ma_div (ma_sub n r) (ma_add n r).

(** The masked bands of one image, and its index image. *)
Definition masked_image (img : image) : image :=
  map (fun b => ew2 mask_pixel b (default [] (last img))) img.
Definition ndvi_image (img : image) : band :=
  ew2 ndvi_pixel (nth 1 (masked_image img) []) (nth 0 (masked_image img) []).

(** One pixel is at least as masked as another: with the same datum, and
    as far as the mask bit alone goes. *)
Definition cloudier (v1 v2 : mval) : Prop :=
  m_data v1 = m_data v2 /\ (m_mask v1 = true -> m_mask v2 = true).
Definition mask_imp (v1 v2 : mval) : Prop :=
  m_mask v1 = true -> m_mask v2 = true.

(** The normalized index as the specification writes it,
    (band2 - band1) / (band2 + band1), for band1 = red and band2 = nir. *)
Definition normalized_index (band1 band2 : Q) : Q :=
  ((band2 - band1) / (band2 + band1))%Q.

(** The keys of [scenes.groupby(lambda x: x.properties.date.strftime(...))]:
    the collection is sorted by key and consecutive equal keys are merged,
    so each acquisition day occurs once, in increasing order. *)
Definition group_keys (scenes : list scene) : list Z :=
  remove_dups (merge_sort Z.le (map sc_date scenes)).

Definition groupby_day (scenes : list scene) : list (Z * list scene) :=
  map (fun d => (d, filter (fun sc => sc_date sc = d) scenes)) (group_keys scenes).

(** [~ndvi_ts.mask], [ndvi_ts.data[~ndvi_ts.mask]] and
    [np.array(dates_ts)[~ndvi_ts.mask]]: the valid samples.  The mask of
    the aggregate is a boolean array with one bit per day. *)
Definition valid_entries (ndvi_ts : list mval) : list bool :=
  map (fun v => negb (m_mask v)) ndvi_ts.
Definition tseries_masked (ndvi_ts : list mval) : list Q :=
  bool_index (map m_data ndvi_ts) (valid_entries ndvi_ts).
Definition dates_masked (dates_ts : list Q) (ndvi_ts : list mval) : list Q :=
  bool_index dates_ts (valid_entries ndvi_ts).

(** ** The maximum composite of 02_exploring_the_api *)

(** A float that may be minus infinity ([None]): [a.filled(-inf)] puts
    minus infinity under every masked entry before the reduction. *)
Definition filled_low (v : mval) : option Q :=
  if m_mask v then None else Some (m_data v).

(** [np.maximum] on such floats. *)
Definition fmax (a b : option Q) : option Q :=
  match a, b with
  | None, _ => b
  | _, None => a
  | Some p, Some q => Some (if Qle_bool p q then q else p)
  end.

(** The default fill value of a masked array of floats, 1e20. *)
Definition default_fill_value : Q := 100000000000000000000.

(** [MaskedArray.max(axis=0)] on a three-dimensional array
    (numpy/ma/core.py): the maximum along the first axis of the array
    filled with minus infinity; the new mask is [mask.all(axis=0)]; under
    it the datum is replaced by the fill value.  A reduction along an axis
    of length zero raises.  (Minus infinity can only be left where every
    entry is masked, so the [0] standing for it outside the new mask is
    never produced.) *)
Definition ma_max0 (a : list band) : exn + band :=
  match a with
  | [] => inl (ValueError "zero-size array to reduction operation maximum which has no identity")
  | b0 :: bs =>
      let result :=
        foldl (ew2 fmax) (map (map filled_low) b0) (map (map (map filled_low)) bs) in
      let newmask :=
        foldl (ew2 andb) (map (map m_mask) b0) (map (map (map m_mask)) bs) in
      inr (ew2 (fun d (m : bool) =>
                  MVal (if m then default_fill_value else default 0%Q d) m)
               result newmask)
  end.

(** [max_ndvi = ndvi.max(axis=0)] of the masked stack. *)
Definition max_ndvi (s : stack) : exn + band :=
  ma_max0 (compute_ndvi (mask_clouds s)).

(** ** Stacks that differ only under the mask *)

(** Two pixels that agree as masked values: the same mask bit and, where
    it is clear, the same datum. *)
Definition same_valid (v1 v2 : mval) : Prop :=
  m_mask v1 = m_mask v2 /\ (m_mask v1 = false -> m_data v1 = m_data v2).

(** Two images with the same cloud band whose red and nir bands agree as
    masked values once the cloud mask is set: they may differ under the
    scene's own mask and under the cloud flag, nowhere else. *)
Definition same_clear_image (img1 img2 : image) : Prop :=
  exists red1 nir1 red2 nir2 c,
    img1 = [red1; nir1; c] /\ img2 = [red2; nir2; c]
    /\ Forall2 (Forall2 same_valid) (ew2 mask_pixel red1 c) (ew2 mask_pixel red2 c)
    /\ Forall2 (Forall2 same_valid) (ew2 mask_pixel nir1 c) (ew2 mask_pixel nir2 c).

Section Pipeline.

(** [dl.scenes.search(geom, products=..., start_datetime, end_datetime,
    limit=None)]: the scenes of the fixed product over the geometry, or
    the error of the remote call. *)
Variable search : json -> Z -> Z -> exn + list scene.

(** The raster the service builds from the scenes of one day (the
    [flatten] argument of [scenes.stack]). *)
Variable mosaic : list image -> image.

(** The least number of samples [interp1d] accepts: 2 in older releases
    of scipy, 1 in newer ones. *)
Variable minval : nat.

(** The array [scenes.stack] builds: one image per acquisition day, in the
    order of the day keys. *)
Definition day_mosaics (scenes : list scene) : stack :=
  map (fun g => mosaic (map sc_raster g.2)) (groupby_day scenes).

(** [scenes.stack(["red", "nir", "cloud_mask"], ctx, flatten=...)]:
    [SceneCollection.stack] refuses an empty collection before it asks for
    any raster.  (The scenes carry their rasters: a failure of the raster
    service during the call is not modelled.) *)
Definition scenes_stack (scenes : list scene) : exn + stack :=
  match scenes with
  | [] => inl (ValueError "This SceneCollection is empty")
  | _ :: _ => inr (day_mosaics scenes)
  end.

(** [ndvi_ts]: the per-day aggregated index series of the scenes. *)
Definition ndvi_series (scenes : list scene) : list mval :=
  index_series (day_mosaics scenes).

(** [dates_ts], the timestamps of the acquisition days.  (The first
    assignment to [dates], a grouping by day of month, is overwritten by
    the next statement and has no effect.) *)
Definition dates_ts (scenes : list scene) : list Q :=
  map Calendar.timestamp (map fst (groupby_day scenes)).

Definition get_ndvi_tseries (geom : json) (start_date end_date : Z)
  : exn + (list pyfloat * list Z) :=
  match search geom start_date end_date with
  | inl e => inl e
  | inr scenes =>
      match scenes_stack scenes with
      | inl e => inl e
      | inr stack =>
          let ndvi_ts := index_series stack in
          let new_dates := np_arange start_date end_date Calendar.step_days in
          let new_dates_ts := map Calendar.timestamp new_dates in
          match interp1d minval (dates_masked (dates_ts scenes) ndvi_ts)
                                (tseries_masked ndvi_ts) with
          | inl e => inl e
          | inr f_interp =>
              inr (tail (map (call_linear f_interp) new_dates_ts), tail new_dates)
          end
      end
  end.

End Pipeline.

(** ** The process's world: local files, remote stores, remote calls *)

Definition bytes : Type := list Byte.byte.

(** A call that fetches an artifact from a remote store, as a mock of the
    storage client would record it. *)
Inductive remote_call : Type :=
  | S3DownloadFile (bucket key filename : string)
  | StorageGetFile (key file_path : string).

Record world : Type := World {
  dirs : gset string;                      (* local directories *)
  files : gmap string bytes;               (* local regular files *)
  s3 : gmap (string * string) bytes;       (* S3 objects by bucket and key *)
  dl_storage : gmap string bytes;          (* the vendor's key-value store *)
  calls : list remote_call                 (* fetches issued so far, oldest first *)
}.

(** A computation that reads and writes the world and may raise. *)
Definition io (A : Type) : Type := world -> (exn + A) * world.

#[export] Instance io_ret : MRet io := fun A (x : A) w => (inr x, w).
#[export] Instance io_bind : MBind io := fun A B (f : A -> io B) (m : io A) w =>
  match m w with
  | (inl e, w') => (inl e, w')
  | (inr a, w') => f a w'
  end.

Definition io_lift {A} (r : exn + A) : io A := fun w => (r, w).

Module Path.

Definition sep : ascii := "/"%char.

Fixpoint has_sep (s : string) : bool :=
  match s with
  | EmptyString => false
  | String c s' => bool_decide (c = sep) || has_sep s'
  end.

Fixpoint all_sep (s : string) : bool :=
  match s with
  | EmptyString => true
  | String c s' => bool_decide (c = sep) && all_sep s'
  end.

Definition starts_with_sep (s : string) : bool :=
  match s with
  | String c _ => bool_decide (c = sep)
  | EmptyString => false
  end.

Fixpoint ends_with_sep (s : string) : bool :=
  match s with
  | EmptyString => false
  | String c EmptyString => bool_decide (c = sep)
  | String _ s' => ends_with_sep s'
  end.

(** posixpath.join for two components. *)
Definition join (a b : string) : string :=
  if starts_with_sep b then b
  else if bool_decide (a = "") || ends_with_sep a then a +:+ b
  else a +:+ "/" +:+ b.

(** [p[:p.rfind("/") + 1]] *)
Fixpoint head_of (p : string) : string :=
  match p with
  | EmptyString => ""
  | String c p' =>
      if has_sep p' then String c (head_of p')
      else if bool_decide (c = sep) then "/" else ""
  end.

(** [s.rstrip("/")] *)
Fixpoint rstrip_sep (s : string) : string :=
  match s with
  | EmptyString => ""
  | String c s' =>
      let r := rstrip_sep s' in
      if bool_decide (c = sep) && bool_decide (r = "") then "" else String c r
  end.

(** posixpath.dirname *)
Definition dirname (p : string) : string :=
  let head := head_of p in
  if all_sep head then head else rstrip_sep head.

(** The proper prefixes of [p] that end just before a separator, the
    empty one excluded: the directories above [p]. *)
Fixpoint parents_from (acc p : string) : list string :=
  match p with
  | EmptyString => []
  | String c p' =>
      (if bool_decide (c = sep) && negb (bool_decide (acc = "")) then [acc] else [])
        ++ parents_from (acc +:+ String c "") p'
  end.
Definition parents (p : string) : list string := parents_from "" p.


End Path.

(** The local file system.  Paths are looked up as they are written, so
    the primitives below answer as the operating system does for
    normalized paths; [..], [.], doubled and trailing separators are not
    resolved. *)

(** [os.path.isdir]: the root and the working directory (the dirname of a
    bare file name) always exist. *)
Definition isdir (w : world) (p : string) : bool :=
  bool_decide (p = "/") || bool_decide (p = "") || bool_decide (p ∈ dirs w).

Definition isfile (w : world) (p : string) : bool :=
  bool_decide (is_Some (files w !! p)).


(** [os.path.exists] *)
Definition osp_exists (p : string) : io bool := fun w =>
  (inr (bool_decide (p = "/") || bool_decide (p ∈ dirs w) || isfile w p), w).

(** [os.makedirs(p)]: creates [p] and the missing directories above it. *)
Definition os_makedirs (p : string) : io () := fun w =>
  if bool_decide (p ∈ dirs w) || isfile w p then (inl (FileExistsError p), w)
  else (inr (), World (dirs w ∪ list_to_set (Path.parents p) ∪ {[p]})
                     (files w) (s3 w) (dl_storage w) (calls w)).

(** Writing a fetched object to a local path: refused when the path is a
    directory or its directory is missing. *)
Definition write_file (w : world) (calls' : list remote_call) (p : string) (v : bytes)
  : (exn + ()) * world :=
  let w' := World (dirs w) (files w) (s3 w) (dl_storage w) calls' in
  if bool_decide (p ∈ dirs w) then (inl (IsADirectoryError p), w')
  else if negb (isdir w (Path.dirname p)) then (inl (FileNotFoundError p), w')
  else (inr (), World (dirs w) (<[p := v]> (files w)) (s3 w) (dl_storage w) calls').

(** [boto3.client("s3").download_file(bucket, key, filename)] *)
Definition s3_download_file (bucket key filename : string) : io () := fun w =>
  let calls' := calls w ++ [S3DownloadFile bucket key filename] in
  match s3 w !! (bucket, key) with
  | None => (inl (ClientError bucket key),
             World (dirs w) (files w) (s3 w) (dl_storage w) calls')
  | Some v => write_file w calls' filename v
  end.

(** [dl.storage.get_file(key, file_path)] *)
Definition storage_get_file (key file_path : string) : io () := fun w =>
  let calls' := calls w ++ [StorageGetFile key file_path] in
  match dl_storage w !! key with
  | None => (inl (NotFoundError key),
             World (dirs w) (files w) (s3 w) (dl_storage w) calls')
  | Some v => write_file w calls' file_path v
  end.

(** A fitted classifier: [clf.predict(ts.reshape(1, -1))[0]] as a function
    of the feature vector. *)
Definition classifier : Type := list pyfloat -> Z.

(** The pipeline's answer: [{"class": ..., "fid": ...}]. *)
Record result (I : Type) : Type := Result { res_class : Z; res_fid : I }.
Arguments Result {I} _ _.
Arguments res_class {I} _.
Arguments res_fid {I} _.

Section Inference.

Variable search : json -> Z -> Z -> exn + list scene.
Variable mosaic : list image -> image.
Variable minval : nat.

(** What [joblib.load] makes of a file's content: the estimator it
    unpickles to (as its [predict]), or nothing when unpickling raises. *)
Variable unpickle : bytes -> option classifier.

(** [json.loads] *)
Variable json_loads : string -> option json.

(** [joblib.load(path)]: opening a missing path or a directory fails;
    content that does not unpickle makes the unpickler raise. *)
Definition joblib_load (path : string) : io classifier := fun w =>
  match files w !! path with
  | None =>
      if bool_decide (path ∈ dirs w) then (inl (IsADirectoryError path), w)
      else (inl (FileNotFoundError path), w)
  | Some v =>
      match unpickle v with
      | None => (inl (LoadFailure path), w)
      | Some clf => (inr clf, w)
      end
  end.

(** [get_ndvi_tseries(geom)] with its default date range. *)
Definition ndvi_tseries_default (geom : json) : io (list pyfloat * list Z) :=
  io_lift (get_ndvi_tseries search mosaic minval geom
             Calendar.default_start Calendar.default_end).

(** model.py, [get_field_class(geom, fid, s3_bucket, model_name)], the
    function run by the Lambda handler and the Batch command (its logging
    calls left out). *)
Definition get_field_class {I} (geom : json) (fid : I) (s3_bucket model_name : string)
  : io (result I) :=
  e ← osp_exists "/tmp/models";
  _ ← (if negb e then os_makedirs "/tmp/models" else mret ());
  let temp_file_path := Path.join "/tmp/models" model_name in
  e ← osp_exists temp_file_path;
  _ ← (if negb e then s3_download_file s3_bucket model_name temp_file_path else mret ());
  clf ← joblib_load temp_file_path;
  ts ← ndvi_tseries_default geom;
  mret (Result (clf ts.1) fid).

(** dl_aws_batch.py, [run_batch_field_model]. *)
Definition run_batch_field_model (geom_str fid s3_bucket model_name : string)
  : io (result string) :=
  geom ← io_lift (match json_loads geom_str with
                  | Some g => inr g
                  | None => inl JSONDecodeError
                  end);
  get_field_class geom fid s3_bucket model_name.

(** The function submitted to the worker pool, [classify_ndvi(geom,
    field_id)]. *)
Definition classify_ndvi {I} (geom : json) (field_id : I) : io (Z * I) :=
  ts ← ndvi_tseries_default geom;
  _ ← storage_get_file "classifier.joblib" "classifier.joblib";
  clf ← joblib_load "classifier.joblib";
  mret (clf ts.1, field_id).

(** Running a list of requests one after the other in one process. *)
Fixpoint run_all {A} (reqs : list (io A)) (w : world) : world :=
  match reqs with
  | [] => w
  | m :: reqs' => run_all reqs' (m w).2
  end.

End Inference.

(** ** The Flask application *)

Module FlaskApp.
Section App.

Variable search : json -> Z -> Z -> exn + list scene.
Variable mosaic : list image -> image.
Variable minval : nat.
Variable unpickle : bytes -> option classifier.

Definition model_path : string := "../models/classifier.joblib".

(** The view [get_field_class()] behind [/getclass]; [content] is
    [request.json], a JSON object. *)
Definition get_field_class (content : gmap string json) : io (result json) :=
  geom ← io_lift (match content !! "geometry" with
                  | Some g => inr g
                  | None => inl (KeyError "geometry")
                  end);
  let fid := if bool_decide ("fid" ∈ dom content)
             then default JNull (content !! "fid") else JStr "" in
  e ← osp_exists model_path;
  _ ← (if negb e then storage_get_file "classifier.joblib" model_path else mret ());
  clf ← joblib_load unpickle model_path;
  ts ← ndvi_tseries_default search mosaic minval geom;
  mret (Result (clf ts.1) fid).

End App.
End FlaskApp.

(** ** The distributed fan-out *)

Section Tasks.

(** The type of field identifiers (the FBndID column). *)
Context {I : Type} `{EqDecision I}.

(** A finished task: [task.is_success] and [task.result].  The result of
    [classify_ndvi] pairs the array [clf.predict] returns, which holds one
    label and is not unwrapped, with the field id; the integer stands for
    that one-element array. *)
Record task : Type := Task { tuid : nat; outcome : exn + (Z * I) }.

Definition is_success (t : task) : bool :=
  match outcome t with
  | inr _ => true
  | inl _ => false
  end.

(** The sample frame: the index label of each row and its "class"
    column.  Labels may repeat: the sample is drawn with replacement. *)
Definition frame : Type := list (I * Z).

(** The number of rows with a label. *)
Definition loc_rows (df : frame) (field_id : I) : nat :=
  length (filter (fun row => row.1 = field_id) df).

(** The frame with the class of the rows of one label replaced. *)
Definition set_class (df : frame) (field_id : I) (cid : Z) : frame :=
  map (fun row => if bool_decide (row.1 = field_id) then (row.1, cid) else row) df.

(** [df.loc[field_id, "class"] = cid] for the one-element array [cid]:
    the cell of the one row with that label takes the element; several
    rows with that label cannot be set from an array of another length,
    and pandas raises; a label that is not in the index enlarges the frame
    by a row. *)
Definition loc_set (df : frame) (field_id : I) (cid : Z) : exn + frame :=
  match loc_rows df field_id with
  | 0%nat => inr (df ++ [(field_id, cid)])
  | 1%nat => inr (set_class df field_id cid)
  | _ => inl (ValueError "Must have equal len keys and value when setting with an iterable")
  end.

(** What the loop over [as_completed(predict_tasks)] leaves: the
    exception that ended it, if one did, the frame and [failed_tasks]. *)
Record collected : Type :=
  Collected { raised : option exn; df_end : frame; failed_tasks : list task }.

(** The loop, over the tasks in their order of completion.  A success is
    written to the frame, a failure is appended to the list; an exception
    of the assignment ends the loop with the frame and the list as they
    are then, the remaining tasks not looked at. *)
Fixpoint collect_loop (completed : list task) (df : frame) (failed : list task)
  : collected :=
  match completed with
  | [] => Collected None df failed
  | t :: rest =>
      match outcome t with
      | inr (cid, field_id) =>
          match loc_set df field_id cid with
          | inl e => Collected (Some e) df failed
          | inr df' => collect_loop rest df' failed
          end
      | inl _ => collect_loop rest df (failed ++ [t])
      end
  end.

(** The whole loop, from [failed_tasks = []]. *)
Definition collect (completed : list task) (df : frame) : collected :=
  collect_loop completed df [].

(** The results written by the success branch, in order. *)
Definition successes (completed : list task) : list (Z * I) :=
  omap (fun t => match outcome t with inr r => Some r | inl _ => None end) completed.

(** Every 10th submitted task raises: the 10th, 20th, ... *)
Definition every_10th_raises (tasks : list task) : Prop :=
  forall i t, tasks !! i = Some t -> is_success t = negb ((S i) mod 10 =? 0)%nat.

End Tasks.

Arguments task : clear implicits.
Arguments frame : clear implicits.
Arguments collected : clear implicits.

(** ** Sample data *)

Module Sample.

Definition px (v : Q) : mval := MVal v false.

(** A one-pixel image with the given red, nir and cloud_mask values. *)
Definition img1 (red nir cloud : Q) : image := [[[px red]]; [[px nir]]; [[px cloud]]].

(** A 2 x 2 image of three bands. *)
Definition img22 : image :=
  [ [[px 2; px 1]; [MVal 4 true; px 3]];
    [[px 3; px 3]; [px 4; px 5]];
    [[px 0; px 1]; [px 0; px 0]] ].

(** Three cloud-free days with index 0.2, 0.5 and 0.8 on days 0, 90 and
    180 of the default range, and one fully clouded day. *)
Definition scenes : list scene :=
  [ Scene (Calendar.default_start + 90) (img1 1 3 0);
    Scene Calendar.default_start (img1 2 3 0);
    Scene (Calendar.default_start + 180) (img1 1 9 0);
    Scene (Calendar.default_start + 100) (img1 1 9 1) ].

Definition geom : json :=
  JObj [("type", JStr "Polygon");
        ("coordinates", JArr [JArr [JArr [JNum 0%Q; JNum 0%Q]; JArr [JNum 1%Q; JNum 0%Q];
                                    JArr [JNum 1%Q; JNum 1%Q]; JArr [JNum 0%Q; JNum 1%Q];
                                    JArr [JNum 0%Q; JNum 0%Q]]])].

Definition search (g : json) (start_date end_date : Z) : exn + list scene := inr scenes.
Definition search_nothing (g : json) (start_date end_date : Z) : exn + list scene := inr [].

(** The service's mosaic, here the first scene of the day. *)
Definition mosaic (l : list image) : image := hd [] l.

Definition model_bytes : bytes := [Byte.x80; Byte.x04].
Definition clf : classifier := fun ts => if (length ts =? 30)%nat then 1 else 0.
Definition unpickle (b : bytes) : option classifier :=
  match b with
  | [Byte.x80; Byte.x04] => Some clf
  | _ => None
  end.
Definition json_loads (s : string) : option json :=
  if bool_decide (s = "{}") then Some (JObj []) else None.

(** A fresh container: /tmp exists, the model is in the bucket and in
    the vendor's store, nothing is cached. *)
Definition fresh : world :=
  World {[ "/tmp" ]} ∅
        {[ ("dl-aws-onboarding", "classifier.joblib") := model_bytes;
           ("dl-aws-onboarding", "/classifier.joblib") := model_bytes ]}
        {[ "classifier.joblib" := model_bytes ]} [].

(** A container whose cache holds the model. *)
Definition warm : world :=
  World {[ "/tmp"; "/tmp/models" ]} {[ "/tmp/models/classifier.joblib" := model_bytes ]}
        {[ ("dl-aws-onboarding", "classifier.joblib") := model_bytes ]}
        {[ "classifier.joblib" := model_bytes ]} [].

(** A Flask host with the model next to the application. *)
Definition flask_host : world :=
  World {[ "../models" ]} {[ "../models/classifier.joblib" := model_bytes ]}
        ∅ {[ "classifier.joblib" := model_bytes ]} [].

(** Twenty submitted tasks of which the 10th and the 20th raise, and a
    frame with one row per field. *)
Definition mk_task (i : nat) : task nat :=
  Task i (if (S i mod 10 =? 0)%nat
          then inl (ValueError "This SceneCollection is empty")
          else inr (1, (1000 + i)%nat)).
Definition tasks : list (task nat) := map mk_task (seq 0 20).
Definition df : frame nat := map (fun i => ((1000 + i)%nat, 0)) (seq 0 20).

(** A request body with and without an identifier. *)
Definition body : gmap string json :=
  {[ "geometry" := geom; "fid" := JStr "test-field" ]}.
Definition body_no_fid : gmap string json := {[ "geometry" := geom ]}.

End Sample.

(** ** Further sample data *)

Module Scenario.

(** A container whose cached model file is not a pickled classifier. *)
Definition corrupt : world :=
  World {[ "/tmp"; "/tmp/models" ]} {[ "/tmp/models/classifier.joblib" := [Byte.x00] ]}
        {[ ("dl-aws-onboarding", "classifier.joblib") := Sample.model_bytes ]}
        ∅ [].

(** A container with /tmp/models in place and an empty bucket. *)
Definition no_model : world :=
  World {[ "/tmp"; "/tmp/models" ]} ∅ ∅ ∅ [].

(** A worker that holds an outdated local copy of the classifier. *)
Definition worker : world :=
  World ∅ {[ "classifier.joblib" := [Byte.x00] ]} ∅
        {[ "classifier.joblib" := Sample.model_bytes ]} [].


(** The index of a row of two pixels on two days: the first pixel valid
    on both, the second masked on both. *)
Definition days : list band :=
  [ [[Sample.px (1 # 5); MVal 7 true]];
    [[Sample.px (1 # 2); MVal 9 true]] ].

(** Three finished tasks: two for field 1001 on workers that find the
    classifier in the store, one for field 1000 on a worker that does
    not. *)
Definition runs : list (json * nat * world) :=
  [ (Sample.geom, 1001%nat, worker);
    (Sample.geom, 1000%nat, no_model);
    (Sample.geom, 1001%nat, Sample.warm) ].
Definition completed : list (task nat) :=
  map (fun r => Task r.1.2
                  (classify_ndvi Sample.search Sample.mosaic 2 Sample.unpickle
                     r.1.1 r.1.2 r.2).1) runs.

(** A sample of twenty rows drawn with replacement, field 1000 in rows 0
    and 2, with one task per row of which the 10th and the 20th raise. *)
Definition field_ids : list nat :=
  [1000; 1001; 1000]%nat ++ map (fun i => (1000 + i)%nat) (seq 3 17).
Definition tasks : list (task nat) :=
  imap (fun i fid => Task i (if (S i mod 10 =? 0)%nat
                             then inl (ValueError "This SceneCollection is empty")
                             else inr (1, fid))) field_ids.
Definition df : frame nat := map (fun fid => (fid, 0)) field_ids.

End Scenario.

(** * Properties *)

(** ** Lookups in element-wise results *)

Lemma at2_zip_with {A B C} (f : A -> B -> C) (a : list (list A)) (b : list (list B)) i j x y :
  at2 a i j = Some x -> at2 b i j = Some y -> at2 (ew2 f a b) i j = Some (f x y).
Proof.
  unfold at2, ew2. intros Ha Hb. rewrite lookup_zip_with.
  destruct (a !! i) as [ra|]; [|done]. destruct (b !! i) as [rb|]; [|done].
  simpl. rewrite lookup_zip_with, Ha, Hb. done.
Qed.

Lemma at3_zip_with {A B C} (f : A -> B -> C) (a : list (list (list A))) b t i j x y :
  at3 a t i j = Some x -> at3 b t i j = Some y -> at3 (ew3 f a b) t i j = Some (f x y).
Proof.
  unfold at3, ew3. intros Ha Hb. rewrite lookup_zip_with.
  destruct (a !! t) as [pa|]; [|done]. destruct (b !! t) as [pb|]; [|done].
  simpl. by apply at2_zip_with.
Qed.

(** ** The normalized index *)

Lemma normalized_index_bounds (band1 band2 : Q) :
  (0 < band1)%Q -> (0 < band2)%Q ->
  (-1 <= normalized_index band1 band2 <= 1)%Q.
Proof.
  intros H1 H2. unfold normalized_index.
  assert (Hs : (0 < band2 + band1)%Q) by lra.
  split.
  - apply Qle_shift_div_l; [done | lra].
  - apply Qle_shift_div_r; [done | lra].
Qed.

(** C4.  For every pixel of the stack whose red and nir values are both
    positive, the index computed by [compute_ndvi] is masked exactly when
    one of the two inputs is, and where it is valid its value is
    (band2 - band1) / (band2 + band1), a number between -1 and 1. *)
Theorem ndvi_pixel_bounded (s : stack) (t i j : nat) (band1 band2 : mval) :
  at3 (take_band 0 s) t i j = Some band1 ->
  at3 (take_band 1 s) t i j = Some band2 ->
  (0 < m_data band1)%Q -> (0 < m_data band2)%Q ->
  exists v, at3 (compute_ndvi s) t i j = Some v
    /\ m_mask v = m_mask band2 || m_mask band1
    /\ (m_mask v = false ->
        m_data v = normalized_index (m_data band1) (m_data band2)
        /\ (-1 <= m_data v <= 1)%Q).
Proof.
  intros Hr Hn Hpr Hpn.
  eexists. split.
  { unfold compute_ndvi. apply at3_zip_with; apply at3_zip_with; eassumption. }
  assert (Hden : Qeq_bool (m_data (ma_add band2 band1)) 0 = false).
  { apply not_true_iff_false. intros Hz. apply Qeq_bool_eq in Hz.
    unfold ma_add in Hz. simpl in Hz. destruct (m_mask band2 || m_mask band1); lra. }
  unfold ma_div. rewrite Hden. simpl.
  split; [by destruct (m_mask band2), (m_mask band1) |].
  intros Hm. rewrite Hm.
  assert (Hm' : m_mask band2 || m_mask band1 = false)
    by (by destruct (m_mask band2), (m_mask band1)).
  rewrite Hm'. split; [reflexivity |].
  apply normalized_index_bounds; done.
Qed.

(** ** Cloud masking *)

Lemma np_repeat1_newaxis1 {A} (a : list A) (n : nat) :
  np_repeat1 (newaxis1 a) n = map (replicate n) a.
Proof.
  unfold np_repeat1, newaxis1. rewrite map_map. apply map_ext.
  intros x. simpl. apply app_nil_r.
Qed.

Lemma cmask_by_image (s : stack) :
  cmask s = map (fun img => replicate (shape1 s) (cloud_bits (default [] (last img)))) s.
Proof.
  unfold cmask, take_last_band. rewrite np_repeat1_newaxis1, !map_map. done.
Qed.

Lemma zip_with_fuse {A B C D E F} (f : A -> D -> E) (g : B -> C -> D)
    (h : A -> B) (k : F -> C) (l : list A) (c : list F) :
  zip_with f l (zip_with g (map h l) (map k c))
  = zip_with (fun x y => f x (g (h x) (k y))) l c.
Proof.
  revert c. induction l as [|x l IH]; intros [|y c]; simpl; [done..|].
  by rewrite IH.
Qed.

Lemma mask_band_fused (b c : band) :
  ew2 (fun v m => MVal (m_data v) m) b (ew2 orb (map (map m_mask) b) (cloud_bits c))
  = ew2 mask_pixel b c.
Proof.
  unfold ew2, cloud_bits. rewrite zip_with_fuse.
  apply zip_with_ext; [|done..]. intros row crow.
  by rewrite zip_with_fuse.
Qed.

(** With a rectangular band axis the masked stack is computed image by
    image and band by band against the image's last band. *)
Lemma mask_clouds_by_band (s : stack) :
  Forall (fun img => length img = shape1 s) s ->
  mask_clouds s
  = map (fun img => map (fun b => ew2 mask_pixel b (default [] (last img))) img) s.
Proof.
  intros Hb. unfold mask_clouds, set_mask, ew4, ma_mask.
  rewrite cmask_by_image.
  rewrite zip_with_fuse, zip_with_diag.
  apply map_ext_Forall. eapply Forall_impl; [exact Hb|].
  intros img Hlen. simpl. unfold ew3.
  rewrite zip_with_replicate_r_eq by (by rewrite length_map).
  rewrite <- list_fmap_compose.
  change (map ?f img) with (f <$> img).
  rewrite zip_with_fmap_r, zip_with_diag.
  apply list_fmap_ext. intros _ b _. simpl. apply mask_band_fused.
Qed.

Lemma has_shape_bands T B H W (s : stack) :
  has_shape T B H W s -> Forall (fun img => length img = shape1 s) s.
Proof.
  intros [_ Hs]. destruct s as [|img0 s]; [constructor|].
  simpl. pose proof (Forall_inv Hs) as [H0 _].
  eapply Forall_impl; [exact Hs|]. intros img [Hl _]. simpl in *. congruence.
Qed.

Lemma map_zip_with_l {A B C D} (g : C -> D) (f : A -> B -> C) (h : A -> D)
    (l : list A) (k : list B) :
  (forall x y, g (f x y) = h x) -> (length l <= length k)%nat ->
  map g (zip_with f l k) = map h l.
Proof.
  intros Hg. revert k. induction l as [|x l IH]; intros [|y k] Hlen; simpl in *;
    [done | done | lia |].
  rewrite Hg, IH by lia. done.
Qed.

Lemma data_mask_band H W (b c : band) :
  band_shape H W b -> band_shape H W c ->
  map (map m_data) (ew2 mask_pixel b c) = map (map m_data) b.
Proof.
  intros [Hb Hrb] [Hc Hrc]. subst H. unfold ew2. revert c Hc Hrc.
  induction Hrb as [|row b Hrow Hrb IH]; intros [|crow c] Hc Hrc; simpl in *;
    [done | done | lia |].
  apply Forall_cons in Hrc as [Hcrow Hrc].
  rewrite IH by (done || lia). f_equal.
  apply map_zip_with_l; [done | lia].
Qed.

Lemma band_shape_at2 H W (b : band) i j :
  band_shape H W b -> (i < H)%nat -> (j < W)%nat -> exists v, at2 b i j = Some v.
Proof.
  intros [Hb Hrows] Hi Hj. unfold at2.
  destruct (lookup_lt_is_Some_2 b i) as [row Hrow]; [lia|].
  rewrite Hrow. apply lookup_lt_is_Some_2.
  rewrite Forall_lookup in Hrows. rewrite (Hrows _ _ Hrow). done.
Qed.

Lemma image_shape_last B H W (img : image) :
  image_shape B H W img -> (0 < B)%nat ->
  exists c, last img = Some c /\ img !! (B - 1)%nat = Some c /\ band_shape H W c.
Proof.
  intros [Hl Hbands] HB.
  destruct (lookup_lt_is_Some_2 img (B - 1)) as [c Hc]; [lia|].
  exists c. rewrite last_lookup, Hl.
  replace (Init.Nat.pred B) with (B - 1)%nat by lia.
  split; [done|]. split; [done|].
  rewrite Forall_lookup in Hbands. eauto.
Qed.

Lemma at2_fmap {A B} (f : A -> B) (a : list (list A)) i j :
  at2 (map (map f) a) i j = f <$> at2 a i j.
Proof.
  unfold at2. change (map ?g a) with (g <$> a). rewrite list_lookup_fmap.
  destruct (a !! i) as [row|]; simpl; [|done].
  change (map f row) with (f <$> row). apply list_lookup_fmap.
Qed.

Lemma at3_fmap {A B} (f : A -> B) (a : list (list (list A))) t i j :
  at3 (map (map (map f)) a) t i j = f <$> at3 a t i j.
Proof.
  unfold at3. change (map ?g a) with (g <$> a). rewrite list_lookup_fmap.
  destruct (a !! t) as [p|]; simpl; [|done]. apply at2_fmap.
Qed.

Lemma at4_fmap {A B} (f : A -> B) (a : list (list (list (list A)))) t b i j :
  at4 (map (map (map (map f))) a) t b i j = f <$> at4 a t b i j.
Proof.
  unfold at4. change (map ?g a) with (g <$> a). rewrite list_lookup_fmap.
  destruct (a !! t) as [p|]; simpl; [|done]. apply at3_fmap.
Qed.

(** C5.  On a stack of shape (T, B, H, W), [get_ndvi_tseries]'s masking
    step leaves the data alone and sets the mask of every entry
    [t, b, i, j] to the old mask bit OR-ed with the predicate "the cloud
    band (the last one) of day [t] holds the flag value 1 at pixel
    [i, j]": the same cloud bit for every band [b] of that day. *)
Theorem mask_clouds_spec (T B H W : nat) (s : stack) :
  has_shape T B H W s ->
  ma_data (mask_clouds s) = ma_data s
  /\ forall t b i j, (t < T)%nat -> (b < B)%nat -> (i < H)%nat -> (j < W)%nat ->
       exists m c,
         at4 (ma_mask s) t b i j = Some m
         /\ at4 (ma_data s) t (B - 1) i j = Some c
         /\ at4 (ma_mask (mask_clouds s)) t b i j = Some (m || Qeq_bool c cloud_flag).
Proof.
  intros Hshape.
  rewrite (mask_clouds_by_band s) by (eapply has_shape_bands; eassumption).
  destruct Hshape as [HT Himgs]. split.
  - unfold ma_data. rewrite map_map. apply map_ext_Forall.
    eapply Forall_impl; [exact Himgs|]. intros img Himg. simpl.
    rewrite map_map. apply map_ext_Forall, Forall_lookup_2. intros k b Hkb.
    assert (HB : (0 < B)%nat).
    { destruct Himg as [Hl _]. apply lookup_lt_Some in Hkb. lia. }
    destruct (image_shape_last B H W _ Himg HB) as (c & Hlast & _ & Hc).
    rewrite Hlast. simpl.
    apply (data_mask_band H W); [|done].
    exact (proj1 (Forall_lookup _ _) (proj2 Himg) _ _ Hkb).
  - intros t b i j Ht Hb Hi Hj.
    destruct (lookup_lt_is_Some_2 s t) as [img Himg]; [lia|].
    pose proof (proj1 (Forall_lookup _ _) Himgs _ _ Himg) as Hishape.
    destruct (image_shape_last B H W _ Hishape) as (c & Hlast & Hlastb & Hc); [lia|].
    destruct (lookup_lt_is_Some_2 img b) as [bd Hbd]; [destruct Hishape; lia|].
    pose proof (proj1 (Forall_lookup _ _) (proj2 Hishape) _ _ Hbd) as Hbshape.
    destruct (band_shape_at2 H W bd i j Hbshape Hi Hj) as [v Hv].
    destruct (band_shape_at2 H W c i j Hc Hi Hj) as [cv Hcv].
    exists (m_mask v), (m_data cv).
    unfold ma_mask, ma_data. rewrite !at4_fmap.
    unfold at4, at3.
    change (map ?g s) with (g <$> s). rewrite list_lookup_fmap, Himg. simpl.
    change (map ?g img) with (g <$> img). rewrite list_lookup_fmap, Hbd, Hlastb, Hlast. simpl.
    rewrite Hv, Hcv. simpl.
    rewrite (at2_zip_with mask_pixel bd c i j v cv Hv Hcv). done.
Qed.

(** ** Monotonicity of masking *)

Lemma zip_with_fuse_pair {A B C D E} (f : C -> D -> E) (g : A -> B -> C)
    (h : A -> B -> D) (a : list A) (b : list B) :
  zip_with f (zip_with g a b) (zip_with h a b)
  = zip_with (fun x y => f (g x y) (h x y)) a b.
Proof.
  revert b. induction a as [|x a IH]; intros [|y b]; simpl; [done..|].
  by rewrite IH.
Qed.

Lemma ndvi_band_fused (n r : band) :
  ew2 ma_div (ew2 ma_sub n r) (ew2 ma_add n r) = ew2 ndvi_pixel n r.
Proof.
  unfold ew2. rewrite zip_with_fuse_pair.
  apply zip_with_ext; [|done..]. intros x y.
  exact (zip_with_fuse_pair ma_div ma_sub ma_add x y).
Qed.

Lemma compute_ndvi_fmap (F : image -> image) (s : stack) :
  compute_ndvi (map F s)
  = map (fun img => ew2 ndvi_pixel (nth 1 (F img) []) (nth 0 (F img) [])) s.
Proof.
  unfold compute_ndvi, take_band, ew3. rewrite !map_map.
  rewrite zip_with_fuse_pair.
  change (map ?g s) with (g <$> s).
  rewrite zip_with_fmap_l, zip_with_fmap_r, zip_with_diag.
  apply list_fmap_ext. intros _ img _. simpl.
  rewrite <- ndvi_band_fused. done.
Qed.

Lemma index_series_by_image (s : stack) :
  Forall (fun img => length img = shape1 s) s ->
  index_series s = map (fun img => ma_median (concat (ndvi_image img))) s.
Proof.
  intros Hb. unfold index_series. rewrite (mask_clouds_by_band s Hb).
  rewrite (compute_ndvi_fmap masked_image). unfold ma_median_12.
  by rewrite map_map.
Qed.

Lemma Forall2_zip_with_rel {A B C} (RA : relation A) (RB : relation B) (RC : relation C)
    (f : A -> B -> C) (l1 l2 : list A) (k1 k2 : list B) :
  (forall x1 x2 y1 y2, RA x1 x2 -> RB y1 y2 -> RC (f x1 y1) (f x2 y2)) ->
  Forall2 RA l1 l2 -> Forall2 RB k1 k2 ->
  Forall2 RC (zip_with f l1 k1) (zip_with f l2 k2).
Proof.
  intros Hf Hl. revert k1 k2. induction Hl as [|x1 x2 l1 l2 Hx Hl IH];
    intros k1 k2 Hk; destruct Hk; simpl; constructor; eauto.
Qed.

Lemma mask_pixel_cloudier (v c1 c2 : mval) :
  more_cloud_px c1 c2 -> cloudier (mask_pixel v c1) (mask_pixel v c2).
Proof.
  intros [_ Hc]. split; [done|]. simpl.
  destruct (m_mask v); [done|]. simpl. exact Hc.
Qed.

Lemma ndvi_pixel_mask_imp (n1 n2 r1 r2 : mval) :
  cloudier n1 n2 -> cloudier r1 r2 -> mask_imp (ndvi_pixel n1 r1) (ndvi_pixel n2 r2).
Proof.
  intros [Hdn Hmn] [Hdr Hmr]. unfold mask_imp, ndvi_pixel, ma_div, ma_add, ma_sub. simpl.
  rewrite <- Hdn, <- Hdr.
  destruct (m_mask n2) eqn:En2, (m_mask r2) eqn:Er2; simpl;
    rewrite ?orb_true_r; try done.
  destruct (m_mask n1); [by discriminate Hmn|].
  destruct (m_mask r1); [by discriminate Hmr|]. done.
Qed.

Lemma Forall2_concat_rel {A} (R : relation A) (a1 a2 : list (list A)) :
  Forall2 (Forall2 R) a1 a2 -> Forall2 R (concat a1) (concat a2).
Proof. induction 1; simpl; [constructor | by apply Forall2_app]. Qed.

Lemma compressed_nil_mono (l1 l2 : list mval) :
  Forall2 mask_imp l1 l2 -> compressed l1 = [] -> compressed l2 = [].
Proof.
  unfold compressed. induction 1 as [|v1 v2 l1 l2 Hv Hl IH]; [done|].
  rewrite !filter_cons. destruct (decide (m_mask v1 = false)) as [|Hm1]; [done|].
  intros H1. apply not_false_is_true, Hv in Hm1.
  destruct (decide (m_mask v2 = false)); [congruence | auto].
Qed.

Lemma insert_by_not_nil {A} (key : A -> Q) (x : A) (l : list A) : insert_by key x l <> [].
Proof. destruct l; simpl; [done|]. by destruct (Qle_bool _ _). Qed.

(** The median is masked exactly when nothing is valid. *)
Lemma ma_median_masked (l : list mval) :
  m_mask (ma_median l) = true <-> compressed l = [].
Proof.
  unfold ma_median. destruct (compressed l) as [|q qs] eqn:E; simpl; [done|].
  pose proof (insert_by_not_nil id q (sort_by id qs)) as Hne.
  destruct (insert_by id q (sort_by id qs)); done.
Qed.

Lemma count_masked_mono {A} (G : A -> mval) (l1 l2 : list A) :
  Forall2 (fun x1 x2 => mask_imp (G x1) (G x2)) l1 l2 ->
  (count_masked (map G l1) <= count_masked (map G l2))%nat.
Proof.
  unfold count_masked. induction 1 as [|x1 x2 l1 l2 Hx Hl IH]; simpl; [done|].
  rewrite !filter_cons.
  destruct (decide (m_mask (G x1) = true)) as [H1|H1].
  - rewrite decide_True by auto. simpl. lia.
  - destruct (decide (m_mask (G x2) = true)); simpl; lia.
Qed.

Lemma more_clouds_bands (s1 s2 : stack) :
  more_clouds s1 s2 ->
  Forall (fun img => length img = shape1 s1) s1
  /\ Forall (fun img => length img = shape1 s2) s2.
Proof.
  intros H.
  assert (H3 : Forall (fun img : image => length img = 3%nat) s1
               /\ Forall (fun img : image => length img = 3%nat) s2).
  { induction H as [|i1 i2 s1 s2 (red & nir & c1 & c2 & -> & -> & _) _ [IH1 IH2]];
      split; constructor; auto. }
  destruct H3 as [H1 H2]. split.
  - destruct H1 as [|img s1' Hi Hs1]; [constructor|]. simpl. rewrite Hi. by constructor.
  - destruct H2 as [|img s2' Hi Hs2]; [constructor|]. simpl. rewrite Hi. by constructor.
Qed.

Lemma ndvi_image_mono (img1 img2 : image) :
  more_cloud_image img1 img2 ->
  Forall2 (Forall2 mask_imp) (ndvi_image img1) (ndvi_image img2).
Proof.
  intros (red & nir & c1 & c2 & -> & -> & Hc). unfold ndvi_image, masked_image. simpl.
  assert (Hband : forall b : band,
             Forall2 (Forall2 cloudier) (ew2 mask_pixel b c1) (ew2 mask_pixel b c2)).
  { intros b. unfold ew2.
    apply Forall2_zip_with_rel with (RA := eq) (RB := Forall2 more_cloud_px);
      [| by apply Forall_Forall2_diag, Forall_true | done].
    intros r1 r2 y1 y2 -> Hy.
    apply Forall2_zip_with_rel with (RA := eq) (RB := more_cloud_px);
      [| by apply Forall_Forall2_diag, Forall_true | done].
    intros v1 v2 cv1 cv2 -> Hcv. by apply mask_pixel_cloudier. }
  unfold ew2 at 1 4.
  apply Forall2_zip_with_rel with (RA := Forall2 cloudier) (RB := Forall2 cloudier);
    [| apply Hband | apply Hband].
  intros n1 n2 r1 r2 Hn Hr.
  apply Forall2_zip_with_rel with (RA := cloudier) (RB := cloudier); [|done..].
  intros. by apply ndvi_pixel_mask_imp.
Qed.

(** C6.  Masking is monotone: if [s2] flags as cloud every pixel that
    [s1] flags (and possibly more), the per-day aggregated index series of
    [s2] has at least as many masked entries as that of [s1]. *)
Theorem masking_monotone (s1 s2 : stack) :
  more_clouds s1 s2 ->
  (count_masked (index_series s1) <= count_masked (index_series s2))%nat.
Proof.
  intros H. destruct (more_clouds_bands s1 s2 H) as [Hb1 Hb2].
  rewrite !index_series_by_image by done.
  apply count_masked_mono.
  eapply Forall2_impl; [exact H|]. intros img1 img2 Himg. unfold mask_imp.
  rewrite !ma_median_masked.
  apply compressed_nil_mono, Forall2_concat_rel, ndvi_image_mono, Himg.
Qed.

(** ** The resampling grid *)

Lemma length_np_arange (start stop step : Z) :
  length (np_arange start stop step) = arange_len start stop step.
Proof. unfold np_arange. by rewrite length_map, length_seq. Qed.

(** For a span that is a positive multiple of the step the count is the
    quotient. *)
Lemma arange_len_multiple (start stop : Z) :
  start < stop -> (stop - start) mod 6 = 0 ->
  Z.of_nat (arange_len start stop 6) = (stop - start) / 6.
Proof.
  intros Hlt Hmod. unfold arange_len.
  pose proof (Z.div_mod (stop - start) 6 ltac:(lia)) as Hdm.
  rewrite Z2Nat.id by (apply Z.div_pos; lia).
  rewrite Hmod in Hdm.
  replace (stop - start + 6 - 1) with ((stop - start) / 6 * 6 + 5) by lia.
  rewrite Z.div_add_l by lia. replace (5 / 6) with 0 by reflexivity. lia.
Qed.

Lemma np_arange_head (start stop : Z) :
  start < stop -> np_arange start stop 6 = start :: tail (np_arange start stop 6).
Proof.
  intros Hlt. unfold np_arange, arange_len.
  assert (H1 : 1 <= (stop - start + 6 - 1) / 6).
  { apply Z.div_le_lower_bound; lia. }
  destruct (Z.to_nat ((stop - start + 6 - 1) / 6)) as [|n] eqn:E; [lia|].
  simpl. f_equal. lia.
Qed.

Lemma np_arange_spec (start stop d : Z) :
  d ∈ np_arange start stop 6 <-> start <= d < stop /\ (d - start) mod 6 = 0.
Proof.
  unfold np_arange, arange_len. rewrite list_elem_of_In, in_map_iff. split.
  - intros (i & <- & Hi). apply in_seq in Hi.
    replace (start + Z.of_nat i * 6 - start) with (Z.of_nat i * 6) by lia.
    rewrite Z.mod_mul by lia.
    pose proof (Z.mul_div_le (stop - start + 6 - 1) 6 ltac:(lia)). lia.
  - intros [Hd Hmod].
    pose proof (Z.div_mod (d - start) 6 ltac:(lia)) as Hdm. rewrite Hmod in Hdm.
    assert (Hk : 0 <= (d - start) / 6) by (apply Z.div_pos; lia).
    exists (Z.to_nat ((d - start) / 6)). split; [lia|].
    apply in_seq. split; [lia|].
    assert ((d - start) / 6 + 1 <= (stop - start + 6 - 1) / 6)
      by (apply Z.div_le_lower_bound; lia).
    lia.
Qed.

(** ** Sorting *)

Lemma sort_by_sorted {A} (key : A -> Q) (l : list A) :
  Sorted (fun a b => (key a < key b)%Q) l -> sort_by key l = l.
Proof.
  induction 1 as [|x l Hl IH Hhd]; [done|].
  unfold sort_by in *. simpl. rewrite IH.
  destruct Hhd as [|y l Hxy]; [done|]. simpl.
  destruct (Qle_bool (key x) (key y)) eqn:E; [done|].
  apply not_true_iff_false in E. exfalso. apply E, Qle_bool_iff. lra.
Qed.

Lemma remove_dups_strictly_sorted (l : list Z) :
  StronglySorted Z.le l -> StronglySorted Z.lt (remove_dups l).
Proof.
  induction 1 as [|x l Hl IH Hx]; simpl; [constructor|].
  destruct (decide_rel elem_of x l) as [|Hnin]; [done|].
  constructor; [done|]. apply Forall_forall. intros y Hy.
  apply (proj1 (elem_of_remove_dups _ _)) in Hy.
  rewrite Forall_forall in Hx. specialize (Hx y Hy).
  assert (x <> y) by (intros ->; done). lia.
Qed.

Lemma group_keys_increasing (scenes : list scene) :
  StronglySorted Z.lt (group_keys scenes).
Proof.
  apply remove_dups_strictly_sorted, StronglySorted_merge_sort; apply _.
Qed.

Lemma timestamp_increasing (d1 d2 : Z) :
  d1 < d2 -> (Calendar.timestamp d1 < Calendar.timestamp d2)%Q.
Proof. intros H. unfold Calendar.timestamp. rewrite <- Zlt_Qlt. lia. Qed.

Lemma Forall_bool_index {A} (P : A -> Prop) (a : list A) (m : list bool) :
  Forall P a -> Forall P (bool_index a m).
Proof.
  intros Ha. revert m. induction Ha as [|x a Hx Ha IH]; intros [|[] m]; simpl; auto.
Qed.

Lemma bool_index_sorted {A} (R : relation A) (a : list A) (m : list bool) :
  StronglySorted R a -> StronglySorted R (bool_index a m).
Proof.
  intros Ha. revert m. induction Ha as [|x a Ha IH Hx]; intros [|[] m]; simpl;
    try constructor; auto using Forall_bool_index.
Qed.

Lemma length_bool_index_valid {A} (a : list A) (ts : list mval) :
  length a = length ts -> length (bool_index a (valid_entries ts)) = count_valid ts.
Proof.
  unfold count_valid, valid_entries. revert a.
  induction ts as [|v ts IH]; intros [|x a] Hlen; simpl in *; try done.
  rewrite filter_cons.
  destruct (m_mask v) eqn:E; case_decide; try congruence; simpl; rewrite IH by lia; done.
Qed.

Lemma groupby_day_keys (scenes : list scene) :
  map fst (groupby_day scenes) = group_keys scenes.
Proof. unfold groupby_day. rewrite map_map. simpl. apply map_id. Qed.

Section PipelineFacts.

Variable search : json -> Z -> Z -> exn + list scene.
Variable mosaic : list image -> image.
Variable minval : nat.

Lemma length_index_series (s : stack) : length (index_series s) = length s.
Proof.
  unfold index_series, ma_median_12, compute_ndvi, ew3, take_band.
  rewrite length_map, !length_zip_with, !length_map.
  unfold mask_clouds, set_mask, ew4, ma_mask. rewrite cmask_by_image.
  rewrite !length_zip_with, !length_map. lia.
Qed.

Lemma length_ndvi_series (scenes : list scene) :
  length (ndvi_series mosaic scenes) = length (dates_ts scenes).
Proof.
  unfold ndvi_series, dates_ts, day_mosaics.
  by rewrite length_index_series, !length_map.
Qed.

(** A valid sample needs a scene. *)
Lemma count_valid_scenes (scenes : list scene) :
  (1 <= count_valid (ndvi_series mosaic scenes))%nat -> scenes <> [].
Proof. intros Hv ->. vm_compute in Hv. lia. Qed.

(** On a collection that is not empty the stack is built and the series
    is handed to the interpolation. *)
Lemma get_ndvi_tseries_scenes (geom : json) (start_date end_date : Z) (scenes : list scene) :
  search geom start_date end_date = inr scenes -> scenes <> [] ->
  get_ndvi_tseries search mosaic minval geom start_date end_date
  = match interp1d minval (dates_masked (dates_ts scenes) (ndvi_series mosaic scenes))
                          (tseries_masked (ndvi_series mosaic scenes)) with
    | inl e => inl e
    | inr f_interp =>
        inr (tail (map (call_linear f_interp)
                     (map Calendar.timestamp
                        (np_arange start_date end_date Calendar.step_days))),
             tail (np_arange start_date end_date Calendar.step_days))
    end.
Proof.
  intros Hsearch Hne. unfold get_ndvi_tseries. rewrite Hsearch.
  destruct scenes as [|sc scenes]; [done|]. reflexivity.
Qed.

Lemma length_dates_masked (scenes : list scene) :
  length (dates_masked (dates_ts scenes) (ndvi_series mosaic scenes))
  = count_valid (ndvi_series mosaic scenes).
Proof. apply length_bool_index_valid. by rewrite length_ndvi_series. Qed.

Lemma length_tseries_masked (ts : list mval) :
  length (tseries_masked ts) = count_valid ts.
Proof. apply length_bool_index_valid. by rewrite length_map. Qed.

Lemma dates_masked_increasing (scenes : list scene) (ts : list mval) :
  StronglySorted Qlt (dates_masked (dates_ts scenes) ts).
Proof.
  apply bool_index_sorted. unfold dates_ts. rewrite groupby_day_keys.
  apply (StronglySorted_fmap _ Z.lt); [apply timestamp_increasing|].
  apply group_keys_increasing.
Qed.

End PipelineFacts.

(** ** The interpolant *)

Lemma zip_sorted_fst (x y : list Q) :
  StronglySorted Qlt x -> StronglySorted (fun a b : Q * Q => (a.1 < b.1)%Q) (zip x y).
Proof.
  intros Hx. revert y. induction Hx as [|x0 x Hx IH H0]; intros [|y0 y]; simpl;
    try constructor; [apply IH|].
  apply Forall_forall. intros [p q] Hp. simpl.
  apply elem_of_zip_l in Hp. rewrite Forall_forall in H0. auto.
Qed.

Lemma interp1d_accepts (minval : nat) (x y : list Q) :
  length x = length y -> (1 <= length x)%nat -> (minval <= length x)%nat ->
  StronglySorted Qlt x ->
  interp1d minval x y = inr (Interp1d x y).
Proof.
  intros Hlen Hpos Hmin Hx. unfold interp1d.
  destruct (Nat.ltb_spec (length x) minval); [lia|].
  rewrite (proj2 (Nat.eqb_eq _ _) Hlen). simpl.
  destruct (Nat.eqb_spec (length y) 0); [lia|].
  rewrite (sort_by_sorted fst) by apply StronglySorted_Sorted, zip_sorted_fst, Hx.
  change (map fst (zip x y)) with ((zip x y).*1).
  change (map snd (zip x y)) with ((zip x y).*2).
  rewrite fst_zip, snd_zip by lia. done.
Qed.

(** Without a sample the constructor fails in the reshape, whatever the
    bound. *)
Lemma interp1d_empty (minval : nat) :
  interp1d minval [] []
  = inl (ValueError "cannot reshape array of size 0 into shape (0,newaxis)").
Proof. reflexivity. Qed.

Lemma sorted_nth_lt (xs : list Q) (i : nat) :
  StronglySorted Qlt xs -> (S i < length xs)%nat ->
  (nth i xs 0 < nth (S i) xs 0)%Q.
Proof.
  intros Hxs. revert i. induction Hxs as [|a xs Hxs IH Ha]; intros i Hi; simpl in *; [lia|].
  destruct i as [|i].
  - destruct xs as [|b xs]; simpl in *; [lia|]. by apply Forall_inv in Ha.
  - apply IH. lia.
Qed.

Lemma searchsorted_le (xs : list Q) (v : Q) : (searchsorted xs v <= length xs)%nat.
Proof. induction xs as [|x xs IH]; simpl; [lia|]. destruct (Qle_bool v x); lia. Qed.

(** On at least two samples with distinct, increasing abscissae every
    evaluation is defined: inside and outside the sampled range. *)
Lemma call_linear_finite (xs ys : list Q) (x_new : Q) :
  StronglySorted Qlt xs -> (2 <= length xs)%nat ->
  is_finite (call_linear (Interp1d xs ys) x_new) = true.
Proof.
  intros Hxs Hlen. unfold call_linear. simpl.
  pose proof (searchsorted_le xs x_new) as Hk.
  set (idx := np_clip (Z.of_nat (searchsorted xs x_new)) 1 (Z.of_nat (length xs) - 1)).
  assert (Hidx : 1 <= idx <= Z.of_nat (length xs) - 1) by (unfold idx, np_clip; lia).
  unfold getitem.
  destruct (Z.ltb_spec idx 0); [lia|].
  destruct (Z.ltb_spec (idx - 1) 0); [lia|].
  cbv beta iota.
  replace (Z.to_nat idx) with (S (Z.to_nat (idx - 1))) by lia.
  pose proof (sorted_nth_lt xs (Z.to_nat (idx - 1)) Hxs ltac:(lia)) as Hlt.
  unfold fdiv.
  destruct (Qeq_bool _ 0) eqn:E; [|done].
  apply Qeq_bool_eq in E. lra.
Qed.

Section SeriesFacts.

Variable search : json -> Z -> Z -> exn + list scene.
Variable mosaic : list image -> image.
Variable minval : nat.

(** scipy's bound for the linear kind is 1 or 2. *)
Hypothesis minval_pos : (1 <= minval)%nat.

(** C9.  Whenever the catalog answers and the valid samples are as many
    as the interpolant needs, [get_ndvi_tseries] returns the interpolant
    evaluated on the grid of the days [start_date + 6 k] in
    [start_date, end_date) and the grid dates themselves, both without
    their first entry; that entry is the range start, and the two
    returned vectors have the same length. *)
Theorem tseries_on_grid_tail (geom : json) (start_date end_date : Z) (scenes : list scene) :
  search geom start_date end_date = inr scenes ->
  (minval <= count_valid (ndvi_series mosaic scenes))%nat ->
  let new_dates := np_arange start_date end_date Calendar.step_days in
  exists f_interp vals dates,
    interp1d minval (dates_masked (dates_ts scenes) (ndvi_series mosaic scenes))
                    (tseries_masked (ndvi_series mosaic scenes)) = inr f_interp
    /\ get_ndvi_tseries search mosaic minval geom start_date end_date = inr (vals, dates)
    /\ vals = tail (map (call_linear f_interp) (map Calendar.timestamp new_dates))
    /\ dates = tail new_dates
    /\ (forall d, d ∈ new_dates <->
         start_date <= d < end_date /\ (d - start_date) mod 6 = 0)
    /\ (start_date < end_date -> new_dates = start_date :: dates)
    /\ length vals = length dates.
Proof.
  intros Hsearch Hvalid new_dates.
  eexists _, _, _.
  rewrite (get_ndvi_tseries_scenes search mosaic minval geom start_date end_date scenes Hsearch)
    by (apply (count_valid_scenes mosaic); lia).
  rewrite interp1d_accepts.
  - split; [reflexivity|]. split; [reflexivity|]. split; [reflexivity|].
    split; [reflexivity|]. split; [apply np_arange_spec|]. split; [apply np_arange_head|].
    fold new_dates. destruct new_dates; simpl; [done|]. by rewrite !length_map.
  - by rewrite length_dates_masked, length_tseries_masked.
  - rewrite length_dates_masked. lia.
  - by rewrite length_dates_masked.
  - apply dates_masked_increasing.
Qed.

(** C1, amended.  With at least two valid samples the call succeeds, the
    resampled series has ceil((end_date - start_date) / 6 days) - 1
    elements, none of them undefined; when the span is a positive multiple
    of 6 days that count is (end_date - start_date) / 6 days - 1. *)
Theorem resampled_length_defined (geom : json) (start_date end_date : Z) (scenes : list scene) :
  (minval <= 2)%nat ->
  search geom start_date end_date = inr scenes ->
  (2 <= count_valid (ndvi_series mosaic scenes))%nat ->
  exists vals dates,
    get_ndvi_tseries search mosaic minval geom start_date end_date = inr (vals, dates)
    /\ length vals = (arange_len start_date end_date 6 - 1)%nat
    /\ Forall (fun v => is_finite v = true) vals
    /\ (start_date < end_date -> (end_date - start_date) mod 6 = 0 ->
        Z.of_nat (length vals) = (end_date - start_date) / 6 - 1).
Proof.
  clear minval_pos. intros Hmin Hsearch Hvalid.
  eexists _, _.
  rewrite (get_ndvi_tseries_scenes search mosaic minval geom start_date end_date scenes Hsearch)
    by (apply (count_valid_scenes mosaic); lia).
  rewrite interp1d_accepts.
  - split; [reflexivity|].
    assert (Hlen : length (tail (map
              (call_linear (Interp1d
                 (dates_masked (dates_ts scenes) (ndvi_series mosaic scenes))
                 (tseries_masked (ndvi_series mosaic scenes))))
              (map Calendar.timestamp (np_arange start_date end_date Calendar.step_days))))
            = (arange_len start_date end_date 6 - 1)%nat).
    { rewrite <- length_np_arange. unfold Calendar.step_days.
      destruct (np_arange start_date end_date 6); simpl; [done|].
      rewrite !length_map. lia. }
    split; [exact Hlen|]. split.
    + apply Forall_tail, Forall_forall. intros v Hv.
      apply list_elem_of_In, in_map_iff in Hv as (x & <- & _).
      apply call_linear_finite; [apply dates_masked_increasing|].
      by rewrite length_dates_masked.
    + intros Hlt Hmod. rewrite Hlen.
      pose proof (arange_len_multiple start_date end_date Hlt Hmod) as Hq.
      pose proof (Z.div_mod (end_date - start_date) 6 ltac:(lia)) as Hdm.
      lia.
  - by rewrite length_dates_masked, length_tseries_masked.
  - rewrite length_dates_masked. lia.
  - rewrite length_dates_masked. lia.
  - apply dates_masked_increasing.
Qed.

End SeriesFacts.

(** ** The classifier cache *)

Lemma isfile_true (w : world) (p : string) : isfile w p = true <-> is_Some (files w !! p).
Proof. unfold isfile. apply bool_decide_eq_true. Qed.




Ltac unfold_io :=
  unfold mbind, io_bind, mret, io_ret, osp_exists, os_makedirs, s3_download_file,
    storage_get_file, write_file, joblib_load, ndvi_tseries_default, io_lift, isfile, isdir.

Ltac crunch_io H :=
  repeat (case_match; simplify_eq; simpl in *;
          try rewrite ?H, ?orb_true_r in *; simplify_eq; try done).

Section CacheFacts.

Variable search : json -> Z -> Z -> exn + list scene.
Variable mosaic : list image -> image.
Variable minval : nat.
Variable unpickle : bytes -> option classifier.

(** A cache hit: nothing is fetched and no file is written. *)
Lemma get_field_class_hit {I} (geom : json) (fid : I) (s3_bucket model_name : string) (w : world) :
  is_Some (files w !! Path.join "/tmp/models" model_name) ->
  let w' := (get_field_class search mosaic minval unpickle geom fid s3_bucket model_name w).2 in
  calls w' = calls w /\ files w' = files w /\ s3 w' = s3 w /\ dl_storage w' = dl_storage w.
Proof.
  intros Hfile. apply isfile_true in Hfile. unfold isfile in Hfile.
  unfold get_field_class. cbv zeta.
  remember (Path.join "/tmp/models" model_name) as tp eqn:Etp. clear Etp.
  unfold_io. crunch_io Hfile.
Qed.

(** A call that returns leaves the model in the cache. *)
Lemma get_field_class_cached {I} (geom : json) (fid : I) (s3_bucket model_name : string)
    (w w1 : world) (r : result I) :
  get_field_class search mosaic minval unpickle geom fid s3_bucket model_name w = (inr r, w1) ->
  is_Some (files w1 !! Path.join "/tmp/models" model_name).
Proof.
  unfold get_field_class. cbv zeta.
  remember (Path.join "/tmp/models" model_name) as tp eqn:Etp. clear Etp.
  unfold_io. intros Hrun.
  repeat (case_match; simplify_eq; simpl in *; try done); eauto.
Qed.

Lemma flask_hit (content : gmap string json) (w : world) :
  is_Some (files w !! FlaskApp.model_path) ->
  let w' := (FlaskApp.get_field_class search mosaic minval unpickle content w).2 in
  calls w' = calls w /\ files w' = files w /\ dirs w' = dirs w
  /\ s3 w' = s3 w /\ dl_storage w' = dl_storage w.
Proof.
  intros Hfile. apply isfile_true in Hfile. unfold isfile in Hfile.
  unfold FlaskApp.get_field_class. cbv zeta.
  remember FlaskApp.model_path as tp eqn:Etp. clear Etp.
  unfold_io. crunch_io Hfile.
Qed.

Lemma flask_cached (content : gmap string json) (w w1 : world) (r : result json) :
  FlaskApp.get_field_class search mosaic minval unpickle content w = (inr r, w1) ->
  is_Some (files w1 !! FlaskApp.model_path).
Proof.
  unfold FlaskApp.get_field_class. cbv zeta.
  remember FlaskApp.model_path as tp eqn:Etp. clear Etp.
  unfold_io. intros Hrun.
  repeat (case_match; simplify_eq; simpl in *; try done); eauto.
Qed.

Lemma run_all_hits {A} (reqs : list (io A)) (p : string) (w : world) :
  Forall (fun m : io A => forall w0, is_Some (files w0 !! p) ->
            calls (m w0).2 = calls w0 /\ files (m w0).2 = files w0) reqs ->
  is_Some (files w !! p) ->
  calls (run_all reqs w) = calls w.
Proof.
  intros Hreqs. revert w. induction Hreqs as [|m reqs Hm Hreqs IH]; intros w Hp; simpl; [done|].
  destruct (Hm w Hp) as [Hc Hf]. rewrite IH by (by rewrite Hf). exact Hc.
Qed.

End CacheFacts.

Section ServingFacts.

Variable search : json -> Z -> Z -> exn + list scene.
Variable mosaic : list image -> image.
Variable minval : nat.
Variable unpickle : bytes -> option classifier.

(** C3, amended.  In the Lambda/Batch and the Flask shape the classifier
    is fetched only when the local cache path is missing the model file:
    a call that returns leaves the file in the cache, having fetched
    nothing if the file was there and having issued the one fetch of the
    missing file otherwise; and once the file is in the cache no later
    call in the process (for the same model) fetches again. *)
Theorem cached_model_not_refetched {I}
    (geom : json) (fid : I) (s3_bucket model_name : string) (w w1 : world) (r : result I)
    (later : list (json * I * string))
    (content : gmap string json) (wf wf1 : world) (rf : result json)
    (laterf : list (gmap string json)) :
  let temp_file_path := Path.join "/tmp/models" model_name in
  (get_field_class search mosaic minval unpickle geom fid s3_bucket model_name w = (inr r, w1) ->
   is_Some (files w1 !! temp_file_path)
   /\ (if decide (is_Some (files w !! temp_file_path)) then calls w1 = calls w
       else calls w1 = calls w ++ [S3DownloadFile s3_bucket model_name temp_file_path]))
  /\ (is_Some (files w1 !! temp_file_path) ->
      calls (run_all (map (fun q : json * I * string =>
               get_field_class search mosaic minval unpickle q.1.1 q.1.2 q.2 model_name) later) w1)
      = calls w1)
  /\ (FlaskApp.get_field_class search mosaic minval unpickle content wf = (inr rf, wf1) ->
      is_Some (files wf1 !! FlaskApp.model_path)
      /\ (if decide (is_Some (files wf !! FlaskApp.model_path)) then calls wf1 = calls wf
          else calls wf1 = calls wf ++ [StorageGetFile "classifier.joblib" FlaskApp.model_path]))
  /\ (is_Some (files wf1 !! FlaskApp.model_path) ->
      calls (run_all (map (FlaskApp.get_field_class search mosaic minval unpickle) laterf) wf1)
      = calls wf1).
Proof.
  intros temp_file_path. split; [|split; [|split]].
  - intros Hrun. split; [eapply get_field_class_cached, Hrun|].
    destruct (decide _) as [Hhit|Hmiss].
    + pose proof (get_field_class_hit search mosaic minval unpickle
                    geom fid s3_bucket model_name w Hhit) as [Hc _].
      by rewrite Hrun in Hc.
    + revert Hrun Hmiss. unfold get_field_class. cbv zeta.
      fold temp_file_path. generalize temp_file_path. intros tp.
      unfold_io. intros Hrun Hmiss.
      rewrite <- not_eq_None_Some in Hmiss. apply dec_stable in Hmiss.
      repeat (case_match; simplify_eq; simpl in *; try done); congruence.
  - intros Hcached. apply (run_all_hits _ temp_file_path); [|exact Hcached].
    apply Forall_forall. intros m Hm.
    apply list_elem_of_In, in_map_iff in Hm as (q & <- & _). intros w0 Hw0.
    pose proof (get_field_class_hit search mosaic minval unpickle
                  q.1.1 q.1.2 q.2 model_name w0 Hw0) as (Hc & Hf & _).
    done.
  - intros Hrun. split; [eapply flask_cached, Hrun|].
    destruct (decide _) as [Hhit|Hmiss].
    + pose proof (flask_hit search mosaic minval unpickle content wf Hhit) as [Hc _].
      by rewrite Hrun in Hc.
    + revert Hrun Hmiss. unfold FlaskApp.get_field_class. cbv zeta.
      generalize FlaskApp.model_path. intros tp.
      unfold_io. intros Hrun Hmiss.
      rewrite <- not_eq_None_Some in Hmiss. apply dec_stable in Hmiss.
      repeat (case_match; simplify_eq; simpl in *; try done); congruence.
  - intros Hcached. apply (run_all_hits _ FlaskApp.model_path); [|exact Hcached].
    apply Forall_forall. intros m Hm.
    apply list_elem_of_In, in_map_iff in Hm as (q & <- & _). intros w0 Hw0.
    pose proof (flask_hit search mosaic minval unpickle q w0 Hw0) as (Hc & Hf & _).
    done.
Qed.

(** The Batch command is [get_field_class] on the parsed geometry. *)
Lemma run_batch_field_model_parsed (json_loads : string -> option json)
    (geom_str fid s3_bucket model_name : string) (geom : json) (w : world) :
  json_loads geom_str = Some geom ->
  run_batch_field_model search mosaic minval unpickle json_loads
    geom_str fid s3_bucket model_name w
  = get_field_class search mosaic minval unpickle geom fid s3_bucket model_name w.
Proof.
  intros Hparse. unfold run_batch_field_model, mbind, io_bind, io_lift.
  by rewrite Hparse.
Qed.

End ServingFacts.

Section FrameFacts.

Variable search : json -> Z -> Z -> exn + list scene.
Variable mosaic : list image -> image.
Variable minval : nat.
Variable unpickle : bytes -> option classifier.



(** C7.  For a request body that contains a geometry, whatever the Flask
    handler returns carries the body's "fid" member, or the empty string
    when the body has none; and it does return, with that identifier and
    the classifier's label, whenever the model file is in place and the
    time series can be built. *)
Theorem flask_fid_passthrough (content : gmap string json) (geom : json) (w : world) :
  content !! "geometry" = Some geom ->
  let fid := default (JStr "") (content !! "fid") in
  (forall r w', FlaskApp.get_field_class search mosaic minval unpickle content w = (inr r, w') ->
                res_fid r = fid)
  /\ (forall v clf vals dates,
        files w !! FlaskApp.model_path = Some v -> unpickle v = Some clf ->
        get_ndvi_tseries search mosaic minval geom
          Calendar.default_start Calendar.default_end = inr (vals, dates) ->
        FlaskApp.get_field_class search mosaic minval unpickle content w
        = (inr (Result (clf vals) fid), w)).
Proof.
  intros Hgeom fid.
  assert (Hfid : (if bool_decide ("fid" ∈ dom content)
                  then default JNull (content !! "fid") else JStr "") = fid).
  { subst fid. case_bool_decide as Hdom.
    - apply elem_of_dom in Hdom as [x ->]. done.
    - apply not_elem_of_dom in Hdom. by rewrite Hdom. }
  unfold FlaskApp.get_field_class. cbv zeta. rewrite Hgeom, Hfid.
  generalize FlaskApp.model_path. intros tp. unfold_io. split.
  - intros r w' Hrun.
    repeat (case_match; simplify_eq; simpl in *; try done).
  - intros v clf vals dates Hfile Hclf Hts.
    assert (Hex : bool_decide (is_Some (files w !! tp)) = true)
      by (apply bool_decide_eq_true; eauto).
    rewrite Hex, !orb_true_r. simpl. rewrite Hfile, Hclf, Hts. done.
Qed.

End FrameFacts.

(** ** No valid sample *)

Section FailureFacts.

Variable search : json -> Z -> Z -> exn + list scene.
Variable mosaic : list image -> image.
Variable minval : nat.
Variable unpickle : bytes -> option classifier.

Lemma tseries_masked_none (ts : list mval) :
  count_valid ts = 0%nat -> tseries_masked ts = [].
Proof.
  intros H0. apply length_zero_iff_nil. by rewrite length_tseries_masked.
Qed.

(** The time series is the last thing [get_field_class] needs: with the
    model in the cache an error of the series is the error of the call. *)
Lemma get_field_class_series_error {I} (geom : json) (fid : I)
    (s3_bucket model_name : string) (w : world) (v : bytes) (clf : classifier) (e : exn) :
  files w !! Path.join "/tmp/models" model_name = Some v -> unpickle v = Some clf ->
  get_ndvi_tseries search mosaic minval geom Calendar.default_start Calendar.default_end
  = inl e ->
  (get_field_class search mosaic minval unpickle geom fid s3_bucket model_name w).1 = inl e.
Proof.
  intros Hfile Hclf Hts. unfold get_field_class. cbv zeta.
  remember (Path.join "/tmp/models" model_name) as tp eqn:Etp. clear Etp.
  assert (Hex : bool_decide (is_Some (files w !! tp)) = true)
    by (apply bool_decide_eq_true; eauto).
  unfold_io. rewrite Hts.
  repeat (case_match; simplify_eq; simpl in *;
          try rewrite ?Hex, ?orb_true_r in *; simplify_eq; try done).
Qed.

(** No handler returns a result without a time series. *)
Lemma get_field_class_needs_series {I} (geom : json) (fid : I)
    (s3_bucket model_name : string) (w w1 : world) (r : result I) :
  get_field_class search mosaic minval unpickle geom fid s3_bucket model_name w = (inr r, w1) ->
  exists ts, get_ndvi_tseries search mosaic minval geom
               Calendar.default_start Calendar.default_end = inr ts.
Proof.
  unfold get_field_class. cbv zeta.
  remember (Path.join "/tmp/models" model_name) as tp eqn:Etp. clear Etp.
  unfold_io. intros Hrun.
  repeat (case_match; simplify_eq; simpl in *; try done); eauto.
Qed.

Lemma flask_series_error (content : gmap string json) (geom : json) (w : world)
    (v : bytes) (clf : classifier) (e : exn) :
  content !! "geometry" = Some geom ->
  files w !! FlaskApp.model_path = Some v -> unpickle v = Some clf ->
  get_ndvi_tseries search mosaic minval geom Calendar.default_start Calendar.default_end
  = inl e ->
  FlaskApp.get_field_class search mosaic minval unpickle content w = (inl e, w).
Proof.
  intros Hgeom Hfile Hclf Hts. unfold FlaskApp.get_field_class. cbv zeta. rewrite Hgeom.
  generalize dependent FlaskApp.model_path. intros tp Hfile.
  assert (Hex : bool_decide (is_Some (files w !! tp)) = true)
    by (apply bool_decide_eq_true; eauto).
  unfold_io. rewrite Hex, !orb_true_r. simpl. by rewrite Hfile, Hclf, Hts.
Qed.

(** C2, amended.  When no valid sample is left, [get_ndvi_tseries] raises
    a [ValueError] - the code defines no error class of its own.  With
    zero scenes it is the one [scenes.stack] raises on an empty
    collection, before any interpolation; with scenes whose daily values
    are all masked it is the one the constructor of [interp1d] raises on
    the empty arrays of valid samples.  The error passes through the
    handlers as it is: [classify_ndvi] raises it and leaves its worker
    untouched, [get_field_class] and the Flask view never return a result
    and raise it whenever the cached model loads. *)
Theorem no_valid_sample_raises {I} (geom : json) (start_date end_date : Z)
    (scenes : list scene) :
  search geom start_date end_date = inr scenes ->
  scenes = [] \/ count_valid (ndvi_series mosaic scenes) = 0%nat ->
  exists msg,
    get_ndvi_tseries search mosaic minval geom start_date end_date = inl (ValueError msg)
    /\ (scenes = [] -> scenes_stack mosaic scenes = inl (ValueError msg))
    /\ (scenes <> [] ->
        tseries_masked (ndvi_series mosaic scenes) = []
        /\ interp1d minval (dates_masked (dates_ts scenes) (ndvi_series mosaic scenes))
                           (tseries_masked (ndvi_series mosaic scenes))
           = inl (ValueError msg))
    /\ (start_date = Calendar.default_start -> end_date = Calendar.default_end ->
        (forall (field_id : I) (w : world),
           classify_ndvi search mosaic minval unpickle geom field_id w
           = (inl (ValueError msg), w))
        /\ (forall (fid : I) (s3_bucket model_name : string) (w w1 : world) (r : result I),
              get_field_class search mosaic minval unpickle geom fid s3_bucket model_name w
              <> (inr r, w1))
        /\ (forall (fid : I) (s3_bucket model_name : string) (w : world) v clf,
              files w !! Path.join "/tmp/models" model_name = Some v ->
              unpickle v = Some clf ->
              (get_field_class search mosaic minval unpickle geom fid s3_bucket model_name w).1
              = inl (ValueError msg))
        /\ (forall (content : gmap string json) (w : world) v clf,
              content !! "geometry" = Some geom ->
              files w !! FlaskApp.model_path = Some v -> unpickle v = Some clf ->
              FlaskApp.get_field_class search mosaic minval unpickle content w
              = (inl (ValueError msg), w))).
Proof.
  intros Hsearch Hnone.
  assert (Hraise : exists msg,
            get_ndvi_tseries search mosaic minval geom start_date end_date
            = inl (ValueError msg)
            /\ (scenes = [] -> scenes_stack mosaic scenes = inl (ValueError msg))
            /\ (scenes <> [] ->
                tseries_masked (ndvi_series mosaic scenes) = []
                /\ interp1d minval (dates_masked (dates_ts scenes) (ndvi_series mosaic scenes))
                                   (tseries_masked (ndvi_series mosaic scenes))
                   = inl (ValueError msg))).
  { destruct scenes as [|sc scenes'] eqn:Escenes.
    - eexists. unfold get_ndvi_tseries. rewrite Hsearch. simpl.
      split; [reflexivity|]. split; [reflexivity | done].
    - destruct Hnone as [Hnil|H0]; [done|].
      assert (Hy : tseries_masked (ndvi_series mosaic (sc :: scenes')) = [])
        by (by apply tseries_masked_none).
      assert (Hx : dates_masked (dates_ts (sc :: scenes')) (ndvi_series mosaic (sc :: scenes')) = []).
      { apply length_zero_iff_nil. by rewrite length_dates_masked. }
      eexists.
      rewrite (get_ndvi_tseries_scenes search mosaic minval geom start_date end_date
                 (sc :: scenes') Hsearch) by done.
      rewrite Hx, Hy, interp1d_empty.
      split; [reflexivity|]. split; [done|]. intros _. split; reflexivity. }
  destruct Hraise as (msg & Hts & Hstack & Hinterp).
  exists msg. split; [exact Hts|]. split; [exact Hstack|]. split; [exact Hinterp|].
  intros -> ->. split; [|split; [|split]].
  - intros field_id w. unfold classify_ndvi, mbind, io_bind, ndvi_tseries_default, io_lift.
    by rewrite Hts.
  - intros fid s3_bucket model_name w w1 r Hrun.
    apply get_field_class_needs_series in Hrun as [ts Hret]. congruence.
  - intros fid s3_bucket model_name w v clf Hfile Hclf.
    by apply (get_field_class_series_error geom fid s3_bucket model_name w v clf).
  - intros content w v clf Hgeom Hfile Hclf.
    by apply (flask_series_error content geom w v clf).
Qed.

End FailureFacts.

(** ** The completion collector *)

Section CollectorFacts.

Context {I : Type} `{EqDecision I}.

Lemma set_class_index (df : frame I) (field_id : I) (cid : Z) :
  (set_class df field_id cid).*1 = df.*1.
Proof.
  unfold set_class. change (map ?f df) with (f <$> df).
  rewrite <- list_fmap_compose. apply list_fmap_ext.
  intros _ row _. simpl. by case_bool_decide.
Qed.

Lemma loc_rows_labels (df : frame I) (l : I) :
  loc_rows df l = length (filter (fun x => x = l) (df.*1)).
Proof.
  unfold loc_rows. induction df as [|[l1 c1] df IH]; [done|].
  rewrite fmap_cons. rewrite (filter_cons (fun x => x = l)).
  rewrite (filter_cons (fun row : I * Z => row.1 = l)). cbn [fst].
  destruct (decide (l1 = l)); cbn [length].
  - f_equal. exact IH.
  - exact IH.
Qed.

Lemma loc_rows_index (df1 df2 : frame I) (l : I) :
  df1.*1 = df2.*1 -> loc_rows df1 l = loc_rows df2 l.
Proof. intros Heq. by rewrite !loc_rows_labels, Heq. Qed.

Lemma loc_rows_elem (df : frame I) (l : I) :
  l ∈ df.*1 <-> (1 <= loc_rows df l)%nat.
Proof.
  rewrite loc_rows_labels. split.
  - intros Hl. assert (Hin : l ∈ filter (fun x => x = l) (df.*1))
      by (by apply list_elem_of_filter).
    destruct (filter (fun x => x = l) (df.*1)); [by apply not_elem_of_nil in Hin|].
    simpl. lia.
  - intros Hlen. destruct (filter (fun x => x = l) (df.*1)) as [|x xs] eqn:E; [simpl in Hlen; lia|].
    assert (Hin : x ∈ filter (fun x => x = l) (df.*1)) by (rewrite E; by left).
    apply list_elem_of_filter in Hin as [-> Hin]. done.
Qed.

Lemma loc_set_one (df : frame I) (field_id : I) (cid : Z) :
  loc_rows df field_id = 1%nat -> loc_set df field_id cid = inr (set_class df field_id cid).
Proof. intros H1. unfold loc_set. by rewrite H1. Qed.

Lemma loc_set_many (df : frame I) (field_id : I) (cid : Z) :
  (2 <= loc_rows df field_id)%nat ->
  loc_set df field_id cid
  = inl (ValueError "Must have equal len keys and value when setting with an iterable").
Proof.
  intros H2. unfold loc_set. destruct (loc_rows df field_id) as [|[|n]]; [lia..|done].
Qed.

Lemma successes_cons (t : task I) (completed : list (task I)) :
  successes (t :: completed)
  = match outcome t with
    | inr r => r :: successes completed
    | inl _ => successes completed
    end.
Proof. unfold successes. simpl. by destruct (outcome t). Qed.

Lemma failed_cons (t : task I) (completed : list (task I)) :
  filter (fun t => is_success t = false) (t :: completed)
  = match outcome t with
    | inr _ => filter (fun t => is_success t = false) completed
    | inl _ => t :: filter (fun t => is_success t = false) completed
    end.
Proof.
  rewrite filter_cons. destruct (outcome t) as [e|r] eqn:E.
  - rewrite decide_True by (unfold is_success; by rewrite E). done.
  - rewrite decide_False by (unfold is_success; by rewrite E). done.
Qed.

(** The writes of a run of successes, row by row: each row gets the
    class of the last success for its label, and keeps its own when there
    is none. *)
Lemma writes_by_row (succ : list (Z * I)) (df : frame I) :
  foldl (fun d r => set_class d r.2 r.1) df succ
  = map (fun row => (row.1, default row.2
                               (fst <$> last (filter (fun r => r.2 = row.1) succ)))) df.
Proof.
  revert df. induction succ as [|r succ IH]; intros df; simpl.
  - rewrite <- (map_id df) at 1. apply map_ext. by intros [l c].
  - rewrite IH. unfold set_class. rewrite map_map. apply map_ext. intros [l c]. simpl.
    rewrite filter_cons.
    case_bool_decide as Hl; simpl.
    + rewrite decide_True by done. rewrite last_cons.
      by destruct (last (filter (fun r0 => r0.2 = l) succ)).
    + by rewrite decide_False by done.
Qed.

Lemma writes_index (succ : list (Z * I)) (df : frame I) :
  (foldl (fun d r => set_class d r.2 r.1) df succ).*1 = df.*1.
Proof.
  revert df. induction succ as [|r succ IH]; intros df; simpl; [done|].
  by rewrite IH, set_class_index.
Qed.

(** When every success names exactly one row the loop runs to its end. *)
Lemma collect_loop_completes (completed : list (task I)) (df : frame I) (acc : list (task I)) :
  Forall (fun r => loc_rows df r.2 = 1%nat) (successes completed) ->
  collect_loop completed df acc
  = Collected None (foldl (fun d r => set_class d r.2 r.1) df (successes completed))
              (acc ++ filter (fun t => is_success t = false) completed).
Proof.
  revert df acc. induction completed as [|t completed IH]; intros df acc Hone.
  - simpl. by rewrite app_nil_r.
  - rewrite successes_cons in Hone. rewrite successes_cons, failed_cons. simpl.
    destruct (outcome t) as [e|[cid field_id]] eqn:E.
    + rewrite IH by done. by rewrite <- app_assoc.
    + apply Forall_cons in Hone as [H1 Hone]. simpl in H1.
      rewrite (loc_set_one _ _ _ H1). simpl. apply IH.
      eapply Forall_impl; [exact Hone|]. intros r Hr. simpl in *.
      by rewrite (loc_rows_index _ df) by apply set_class_index.
Qed.

(** In general the loop ends after some [j] tasks: at the end of the
    list, or at the first success whose label names several rows. *)
Lemma collect_loop_stops (completed : list (task I)) (df : frame I) (acc : list (task I)) :
  Forall (fun r => r.2 ∈ df.*1) (successes completed) ->
  exists j,
    (j <= length completed)%nat
    /\ Forall (fun r => loc_rows df r.2 = 1%nat) (successes (take j completed))
    /\ df_end (collect_loop completed df acc)
       = foldl (fun d r => set_class d r.2 r.1) df (successes (take j completed))
    /\ failed_tasks (collect_loop completed df acc)
       = acc ++ filter (fun t => is_success t = false) (take j completed)
    /\ (raised (collect_loop completed df acc) = None /\ j = length completed
        \/ raised (collect_loop completed df acc)
           = Some (ValueError "Must have equal len keys and value when setting with an iterable")
           /\ exists t cid field_id,
                completed !! j = Some t /\ outcome t = inr (cid, field_id)
                /\ (2 <= loc_rows df field_id)%nat).
Proof.
  revert df acc. induction completed as [|t completed IH]; intros df acc Hin.
  - exists 0%nat. simpl. rewrite app_nil_r. repeat split; try done. by left.
  - rewrite successes_cons in Hin. simpl.
    destruct (outcome t) as [e|[cid field_id]] eqn:E.
    + destruct (IH df (acc ++ [t]) Hin) as (j & Hj & Hone & Hdf & Hfail & Hend).
      exists (S j). cbn [take]. rewrite successes_cons, failed_cons, E.
      split; [simpl; lia|]. split; [done|]. split; [done|].
      split; [by rewrite Hfail, <- app_assoc|]. simpl.
      destruct Hend as [[Hnone ->]|Hraise]; [by left | by right].
    + apply Forall_cons in Hin as [Hfid Hin]. simpl in Hfid.
      apply loc_rows_elem in Hfid.
      destruct (decide (loc_rows df field_id = 1%nat)) as [H1|Hmany].
      * rewrite (loc_set_one _ _ _ H1).
        destruct (IH (set_class df field_id cid) acc) as (j & Hj & Hone & Hdf & Hfail & Hend).
        { eapply Forall_impl; [exact Hin|]. intros r Hr. simpl in *.
          by rewrite set_class_index. }
        exists (S j). cbn [take]. rewrite successes_cons, failed_cons, E.
        split; [simpl; lia|]. split.
        { constructor; [done|]. eapply Forall_impl; [exact Hone|]. intros r Hr. simpl in *.
          by rewrite <- (loc_rows_index (set_class df field_id cid) df)
            by apply set_class_index. }
        split; [done|]. split; [done|]. simpl.
        destruct Hend as [[Hnone ->]|(Hraise & t' & cid' & fid' & Ht' & Hout' & Hrows')].
        -- by left.
        -- right. split; [done|]. exists t', cid', fid'. split; [done|]. split; [done|].
           by rewrite <- (loc_rows_index (set_class df field_id cid) df)
             by apply set_class_index.
      * rewrite loc_set_many by lia.
        exists 0%nat. simpl. rewrite app_nil_r.
        split; [lia|]. split; [constructor|]. split; [done|]. split; [done|].
        right. split; [done|]. exists t, cid, field_id. repeat split; [done|lia].
Qed.

End CollectorFacts.

(** C8.  The claim fails on a sample with a repeated field id, as the
    notebook draws it: of twenty tasks, the 10th and the 20th raising,
    none is counted when they complete in the order of submission - the
    first success is for a label of two rows, the assignment raises and
    the loop ends - and in the reverse order the loop ends with fifteen
    classes written, where the claim has eighteen: the three tasks still
    to come are never looked at. *)
Theorem collector_aborts_on_repeated_label :
  length Scenario.tasks = 20%nat
  /\ every_10th_raises Scenario.tasks
  /\ loc_rows Scenario.df 1000%nat = 2%nat
  /\ collect Scenario.tasks Scenario.df
     = Collected
         (Some (ValueError "Must have equal len keys and value when setting with an iterable"))
         Scenario.df []
  /\ (let r := collect (reverse Scenario.tasks) Scenario.df in
      raised r
      = Some (ValueError "Must have equal len keys and value when setting with an iterable")
      /\ length (failed_tasks r) = 2%nat
      /\ length (filter (fun row => row.2 = 1) (df_end r)) = 15%nat).
Proof.
  split; [reflexivity|]. split.
  { intros i t Hi. unfold Scenario.tasks in Hi.
    apply list_lookup_imap_Some in Hi as (fid & _ & ->).
    unfold is_success. cbn [outcome]. by destruct (S i mod 10 =? 0)%nat. }
  split; [reflexivity|]. split; [vm_compute; reflexivity|].
  split; [vm_compute; reflexivity|]. split; vm_compute; reflexivity.
Qed.

(** ** Concrete runs *)

(** The bound at pixel (0, 1) of the sample image: red 1, nir 3. *)
Lemma ndvi_pixel_bounded_witness :
  exists v, at3 (compute_ndvi [Sample.img22]) 0 0 1 = Some v
    /\ m_mask v = m_mask (Sample.px 3) || m_mask (Sample.px 1)
    /\ (m_mask v = false ->
        m_data v = normalized_index (m_data (Sample.px 1)) (m_data (Sample.px 3))
        /\ (-1 <= m_data v <= 1)%Q).
Proof.
  apply (ndvi_pixel_bounded [Sample.img22] 0 0 1 (Sample.px 1) (Sample.px 3));
    reflexivity.
Defined.

(** The masking step on the 2 x 2 sample image, red band, pixel (0, 1). *)
Lemma mask_clouds_spec_witness :
  exists m c,
    at4 (ma_mask [Sample.img22]) 0 0 0 1 = Some m
    /\ at4 (ma_data [Sample.img22]) 0 (3 - 1) 0 1 = Some c
    /\ at4 (ma_mask (mask_clouds [Sample.img22])) 0 0 0 1 = Some (m || Qeq_bool c cloud_flag).
Proof.
  apply (mask_clouds_spec 1 3 2 2 [Sample.img22]); [|lia..].
  split; [reflexivity|]. repeat constructor.
Defined.

(** Flagging the one pixel of the first day as cloud masks that day. *)
Lemma masking_monotone_witness :
  (count_masked (index_series [Sample.img1 1 3 0; Sample.img22])
   <= count_masked (index_series [Sample.img1 1 3 1; Sample.img22]))%nat.
Proof.
  apply masking_monotone. constructor; [|constructor; [|constructor]].
  - exists [[Sample.px 1]], [[Sample.px 3]], [[Sample.px 0]], [[Sample.px 1]].
    split; [reflexivity|]. split; [reflexivity|]. repeat constructor.
  - eexists _, _, _, _. split; [reflexivity|]. split; [reflexivity|].
    repeat constructor; intros H; exact H.
Defined.

(** The sample scenes over the default date range. *)
Lemma tseries_on_grid_tail_witness :
  exists vals dates,
    get_ndvi_tseries Sample.search Sample.mosaic 2 Sample.geom
      Calendar.default_start Calendar.default_end = inr (vals, dates)
    /\ np_arange Calendar.default_start Calendar.default_end Calendar.step_days
       = Calendar.default_start :: dates
    /\ length vals = length dates.
Proof.
  destruct (tseries_on_grid_tail Sample.search Sample.mosaic 2 ltac:(lia) Sample.geom
              Calendar.default_start Calendar.default_end Sample.scenes
              eq_refl ltac:(vm_compute; lia))
    as (f & vals & dates & _ & Hrun & _ & _ & _ & Hhead & Hlen).
  exists vals, dates. split; [exact Hrun|]. split; [|exact Hlen].
  apply Hhead. reflexivity.
Defined.

(** C1 as stated fails on the function's own default range, 2019-04-01
    to 2019-10-01: the span is 183 days, the series has 30 elements, and
    183 / 6 - 1 is 29 in integers and 29.5 in rationals. *)
Lemma resampled_length_counterexample :
  (2 <= count_valid (ndvi_series Sample.mosaic Sample.scenes))%nat
  /\ exists vals dates,
       get_ndvi_tseries Sample.search Sample.mosaic 2 Sample.geom
         Calendar.default_start Calendar.default_end = inr (vals, dates)
       /\ Z.of_nat (length vals) <> (Calendar.default_end - Calendar.default_start) / 6 - 1
       /\ ~ (inject_Z (Z.of_nat (length vals))
             == inject_Z (Calendar.default_end - Calendar.default_start) / 6 - 1)%Q.
Proof.
  split; [vm_compute; lia|].
  eexists _, _. split; [vm_compute; reflexivity|].
  split; vm_compute; discriminate.
Qed.

(** A span of 180 days, a multiple of the step: 29 elements, all defined. *)
Lemma resampled_length_defined_witness :
  exists vals dates,
    get_ndvi_tseries Sample.search Sample.mosaic 2 Sample.geom
      Calendar.default_start (Calendar.default_start + 180) = inr (vals, dates)
    /\ Z.of_nat (length vals) = 180 / 6 - 1
    /\ Forall (fun v => is_finite v = true) vals.
Proof.
  destruct (resampled_length_defined Sample.search Sample.mosaic 2 Sample.geom
              Calendar.default_start (Calendar.default_start + 180) Sample.scenes
              ltac:(lia) eq_refl ltac:(vm_compute; lia))
    as (vals & dates & Hrun & _ & Hfin & Hlen).
  exists vals, dates. split; [exact Hrun|]. split; [|exact Hfin].
  rewrite Hlen; [f_equal; f_equal; lia | lia | reflexivity].
Defined.

(** C2 as stated fails: with zero scenes the time-series builder, and
    with it the pipeline whose model is already cached, raises the
    [ValueError] of the empty stack. *)
Lemma zero_scenes_counterexample :
  exists e,
    get_ndvi_tseries Sample.search_nothing Sample.mosaic 1 Sample.geom
      Calendar.default_start Calendar.default_end = inl e
    /\ (get_field_class Sample.search_nothing Sample.mosaic 1 Sample.unpickle
          Sample.geom "test-field" "dl-aws-onboarding" "classifier.joblib" Sample.warm).1
       = inl e
    /\ e = ValueError "This SceneCollection is empty"
    /\ exn_name e = Some "ValueError"
    /\ exn_name e <> Some "InsufficientDataError".
Proof.
  eexists. split; [vm_compute; reflexivity|]. split; [vm_compute; reflexivity|].
  split; [reflexivity|]. split; [reflexivity | discriminate].
Qed.

(** An empty catalog answer, in the time-series builder and in the three
    handlers. *)
Lemma no_valid_sample_raises_witness :
  exists msg,
    get_ndvi_tseries Sample.search_nothing Sample.mosaic 1 Sample.geom
      Calendar.default_start Calendar.default_end = inl (ValueError msg)
    /\ scenes_stack Sample.mosaic [] = inl (ValueError msg)
    /\ classify_ndvi Sample.search_nothing Sample.mosaic 1 Sample.unpickle
         Sample.geom 7%nat Sample.fresh = (inl (ValueError msg), Sample.fresh)
    /\ (get_field_class Sample.search_nothing Sample.mosaic 1 Sample.unpickle
          Sample.geom 7%nat "dl-aws-onboarding" "classifier.joblib" Sample.warm).1
       = inl (ValueError msg)
    /\ FlaskApp.get_field_class Sample.search_nothing Sample.mosaic 1 Sample.unpickle
         Sample.body Sample.flask_host = (inl (ValueError msg), Sample.flask_host).
Proof.
  destruct (no_valid_sample_raises Sample.search_nothing Sample.mosaic 1 Sample.unpickle
              (I := nat) Sample.geom Calendar.default_start Calendar.default_end []
              eq_refl (or_introl eq_refl))
    as (msg & Hts & Hstack & _ & Hhandlers).
  destruct (Hhandlers eq_refl eq_refl) as (Htask & _ & Hlambda & Hflask).
  exists msg. split; [exact Hts|]. split; [exact (Hstack eq_refl)|].
  split; [apply Htask|]. split.
  - apply (Hlambda 7%nat "dl-aws-onboarding" "classifier.joblib" Sample.warm
             Sample.model_bytes Sample.clf); reflexivity.
  - apply (Hflask Sample.body Sample.flask_host Sample.model_bytes Sample.clf); reflexivity.
Defined.

(** A fresh container fetches once; the calls that follow fetch nothing. *)
Lemma cached_model_not_refetched_witness :
  let serve := @get_field_class Sample.search Sample.mosaic 2 Sample.unpickle nat in
  let flask := FlaskApp.get_field_class Sample.search Sample.mosaic 2 Sample.unpickle in
  let w1 := (serve Sample.geom 7%nat "dl-aws-onboarding" "classifier.joblib" Sample.fresh).2 in
  let wf1 := (flask Sample.body Sample.flask_host).2 in
  calls w1 = calls Sample.fresh
               ++ [S3DownloadFile "dl-aws-onboarding" "classifier.joblib"
                     (Path.join "/tmp/models" "classifier.joblib")]
  /\ calls (run_all (map (fun q : json * nat * string =>
               serve q.1.1 q.1.2 q.2 "classifier.joblib")
             [(Sample.geom, 8%nat, "dl-aws-onboarding"); (Sample.geom, 9%nat, "elsewhere")]) w1)
     = calls w1
  /\ calls (run_all (map flask [Sample.body_no_fid; Sample.body]) wf1) = calls wf1.
Proof.
  intros serve flask w1 wf1.
  destruct (cached_model_not_refetched Sample.search Sample.mosaic 2 Sample.unpickle
              Sample.geom 7%nat "dl-aws-onboarding" "classifier.joblib" Sample.fresh
              w1 (Result 1 7%nat)
              [(Sample.geom, 8%nat, "dl-aws-onboarding"); (Sample.geom, 9%nat, "elsewhere")]
              Sample.body Sample.flask_host wf1
              (Result 1 (JStr "test-field")) [Sample.body_no_fid; Sample.body])
    as (Hlambda & Hlater & Hflask & Hlaterf).
  destruct (Hlambda ltac:(vm_compute; reflexivity)) as [Hcached Hfirst].
  destruct (Hflask ltac:(vm_compute; reflexivity)) as [Hcachedf _].
  split; [|split; [exact (Hlater Hcached) | exact (Hlaterf Hcachedf)]].
  destruct (decide _) as [Hhit|_] in Hfirst; [|exact Hfirst].
  destruct Hhit as [v Hv]. vm_compute in Hv. discriminate Hv.
Defined.

(** C3 as stated fails for the distributed-task shape: [classify_ndvi]
    fetches the classifier on every call, also when the previous call has
    left the file in place. *)
Lemma classify_ndvi_refetches :
  let run := classify_ndvi Sample.search Sample.mosaic 2 Sample.unpickle Sample.geom 7%nat in
  let w1 := (run Sample.fresh).2 in
  (run Sample.fresh).1 = inr (1, 7%nat)
  /\ is_Some (files w1 !! "classifier.joblib")
  /\ (run w1).1 = inr (1, 7%nat)
  /\ calls (run w1).2 = calls w1 ++ [StorageGetFile "classifier.joblib" "classifier.joblib"]
  /\ calls (run w1).2 <> calls w1.
Proof.
  intros run w1.
  split; [vm_compute; reflexivity|].
  split; [eexists; vm_compute; reflexivity|].
  split; [vm_compute; reflexivity|].
  split; [vm_compute; reflexivity|].
  vm_compute. discriminate.
Qed.




(** A request with, and one without, an identifier. *)
Lemma flask_fid_passthrough_witness :
  (FlaskApp.get_field_class Sample.search Sample.mosaic 2 Sample.unpickle
     Sample.body Sample.flask_host).1 = inr (Result 1 (JStr "test-field"))
  /\ (FlaskApp.get_field_class Sample.search Sample.mosaic 2 Sample.unpickle
        Sample.body_no_fid Sample.flask_host).1 = inr (Result 1 (JStr "")).
Proof.
  split.
  - destruct (flask_fid_passthrough Sample.search Sample.mosaic 2 Sample.unpickle
                Sample.body Sample.geom Sample.flask_host ltac:(vm_compute; reflexivity))
      as [_ Hrun].
    erewrite Hrun;
      [| vm_compute; reflexivity | vm_compute; reflexivity | vm_compute; reflexivity].
    vm_compute; reflexivity.
  - destruct (flask_fid_passthrough Sample.search Sample.mosaic 2 Sample.unpickle
                Sample.body_no_fid Sample.geom Sample.flask_host ltac:(vm_compute; reflexivity))
      as [_ Hrun].
    erewrite Hrun;
      [| vm_compute; reflexivity | vm_compute; reflexivity | vm_compute; reflexivity].
    vm_compute; reflexivity.
Defined.

(** * Further properties of the handlers *)


Section HandlerFacts.

Variable search : json -> Z -> Z -> exn + list scene.
Variable mosaic : list image -> image.
Variable minval : nat.
Variable unpickle : bytes -> option classifier.

(** Whatever [get_ndvi_tseries] returns has one value per returned
    date, as many as the grid has points after the first. *)
Lemma get_ndvi_tseries_lengths (geom : json) (start_date end_date : Z)
    (vals : list pyfloat) (dates : list Z) :
  get_ndvi_tseries search mosaic minval geom start_date end_date = inr (vals, dates) ->
  length vals = (arange_len start_date end_date 6 - 1)%nat
  /\ length dates = (arange_len start_date end_date 6 - 1)%nat.
Proof.
  unfold get_ndvi_tseries. intros Hrun.
  destruct (search geom start_date end_date) as [e|scenes]; [done|].
  destruct (scenes_stack mosaic scenes) as [e|s]; [done|].
  destruct (interp1d _ _ _) as [e|f]; [done|].
  injection Hrun as <- <-. unfold Calendar.step_days.
  rewrite <- length_np_arange.
  destruct (np_arange start_date end_date 6); simpl; [done|].
  rewrite !length_map. lia.
Qed.

(** A request body without a "geometry" member makes the Flask handler
    raise [KeyError] at once: the model is neither looked up nor fetched
    and the world is as before, whatever else the body holds. *)
Theorem flask_missing_geometry (content : gmap string json) (w : world) :
  content !! "geometry" = None ->
  FlaskApp.get_field_class search mosaic minval unpickle content w
  = (inl (KeyError "geometry"), w).
Proof.
  intros Hgeom. unfold FlaskApp.get_field_class, mbind, io_bind, io_lift.
  by rewrite Hgeom.
Qed.


End HandlerFacts.

Section CacheEdgeFacts.

Variable search : json -> Z -> Z -> exn + list scene.
Variable mosaic : list image -> image.
Variable minval : nat.
Variable unpickle : bytes -> option classifier.

Lemma run_all_frozen {A} (reqs : list (io A)) (p : string) (w : world) :
  Forall (fun m : io A => forall w0, is_Some (files w0 !! p) ->
            calls (m w0).2 = calls w0 /\ files (m w0).2 = files w0) reqs ->
  is_Some (files w !! p) ->
  calls (run_all reqs w) = calls w /\ files (run_all reqs w) = files w.
Proof.
  intros Hreqs. revert w. induction Hreqs as [|m reqs Hm Hreqs IH]; intros w Hp; simpl; [done|].
  destruct (Hm w Hp) as [Hc Hf].
  destruct (IH (m w).2) as [Hc' Hf']; [by rewrite Hf|]. split; congruence.
Qed.

(** A cached file that does not unpickle is never replaced: the call
    fails inside [joblib.load] (with whichever exception the bytes
    provoke there) without fetching, the file stays as it is, and so does
    every later call of the process, whatever the bucket holds. *)
Theorem corrupt_cache_never_refreshed {I} (geom : json) (fid : I)
    (s3_bucket model_name : string) (w : world) (v : bytes)
    (earlier : list (json * I * string)) :
  let temp_file_path := Path.join "/tmp/models" model_name in
  let serve (q : json * I * string) :=
    get_field_class search mosaic minval unpickle q.1.1 q.1.2 q.2 model_name in
  let w0 := run_all (map serve earlier) w in
  files w !! temp_file_path = Some v -> unpickle v = None ->
  (serve (geom, fid, s3_bucket) w0).1 = inl (LoadFailure temp_file_path)
  /\ files (serve (geom, fid, s3_bucket) w0).2 = files w
  /\ calls (serve (geom, fid, s3_bucket) w0).2 = calls w.
Proof.
  intros temp_file_path serve w0 Hfile Hbad.
  assert (Hfrozen : calls w0 = calls w /\ files w0 = files w).
  { apply (run_all_frozen _ temp_file_path); [|by eexists].
    apply Forall_forall. intros m Hm.
    apply list_elem_of_In, in_map_iff in Hm as (q & <- & _). intros w1 Hw1.
    pose proof (get_field_class_hit search mosaic minval unpickle
                  q.1.1 q.1.2 q.2 model_name w1 Hw1) as (Hc & Hf & _).
    done. }
  destruct Hfrozen as [Hc0 Hf0].
  assert (Hfile0 : files w0 !! temp_file_path = Some v) by (by rewrite Hf0).
  pose proof (get_field_class_hit search mosaic minval unpickle
                geom fid s3_bucket model_name w0 ltac:(by eexists)) as (Hc & Hf & _).
  split; [|split; [by rewrite <- Hf0 | by rewrite <- Hc0]].
  clear Hc Hf. unfold serve. cbn [fst snd].
  generalize dependent w0. intros w0 _ _ Hfile0. clear serve.
  unfold get_field_class. cbv zeta. fold temp_file_path.
  generalize dependent temp_file_path. intros tp _ Hfile0.
  assert (Hex : bool_decide (is_Some (files w0 !! tp)) = true)
    by (apply bool_decide_eq_true; eauto).
  unfold_io.
  repeat (case_match; simplify_eq; simpl in *;
          try rewrite ?Hex, ?orb_true_r in *; simplify_eq; try done).
Qed.

(** With the model in the cache the outcome of [get_field_class] does
    not depend on the remote stores: the cached copy is used even when the
    bucket holds a different object, or none. *)
Theorem cached_model_ignores_remote {I} (geom : json) (fid : I)
    (s3_bucket model_name : string) (w : world)
    (s3' : gmap (string * string) bytes) (storage' : gmap string bytes) :
  is_Some (files w !! Path.join "/tmp/models" model_name) ->
  (get_field_class search mosaic minval unpickle geom fid s3_bucket model_name
     (World (dirs w) (files w) s3' storage' (calls w))).1
  = (get_field_class search mosaic minval unpickle geom fid s3_bucket model_name w).1.
Proof.
  intros Hfile. apply isfile_true in Hfile. unfold isfile in Hfile.
  unfold get_field_class. cbv zeta.
  remember (Path.join "/tmp/models" model_name) as tp eqn:Etp. clear Etp.
  unfold_io. cbn [dirs files s3 dl_storage calls].
  repeat (case_match; simplify_eq; simpl in *;
          try rewrite ?Hfile, ?orb_true_r in *; simplify_eq; try done).
Qed.

(** A result of [get_field_class] carries the identifier it was called
    with and the label the cached classifier gives to the resampled series
    of the default date range, which has 30 features. *)
Theorem get_field_class_result {I} (geom : json) (fid : I)
    (s3_bucket model_name : string) (w w1 : world) (r : result I) :
  get_field_class search mosaic minval unpickle geom fid s3_bucket model_name w = (inr r, w1) ->
  res_fid r = fid
  /\ exists v clf vals dates,
       files w1 !! Path.join "/tmp/models" model_name = Some v
       /\ unpickle v = Some clf
       /\ get_ndvi_tseries search mosaic minval geom
            Calendar.default_start Calendar.default_end = inr (vals, dates)
       /\ res_class r = clf vals
       /\ length vals = 30%nat.
Proof.
  unfold get_field_class. cbv zeta.
  remember (Path.join "/tmp/models" model_name) as tp eqn:Etp. clear Etp.
  unfold_io. intros Hrun.
  repeat (case_match; simplify_eq; simpl in *; try done).
  all: split; [done|].
  all: match goal with
       | Hts : get_ndvi_tseries _ _ _ _ _ _ = inr ?p |- _ =>
           destruct p as [vals dates];
           pose proof (get_ndvi_tseries_lengths _ _ _ _ _ _ _ _ Hts) as [Hlen _]
       end.
  all: eexists _, _, _, _; repeat split; eauto; try (by rewrite lookup_insert_eq).
Qed.

(** [classify_ndvi] builds the time series before it touches the model:
    when the series cannot be built, it raises that error without fetching
    and leaves the worker as it was. *)
Theorem classify_ndvi_series_error {I} (geom : json) (field_id : I) (w : world) (e : exn) :
  get_ndvi_tseries search mosaic minval geom Calendar.default_start Calendar.default_end
  = inl e ->
  classify_ndvi search mosaic minval unpickle geom field_id w = (inl e, w).
Proof.
  intros Hts. unfold classify_ndvi, mbind, io_bind, ndvi_tseries_default, io_lift.
  by rewrite Hts.
Qed.

(** [classify_ndvi] always predicts with the model now in the store: a
    local copy left by an earlier task is overwritten, not reused. *)
Theorem classify_ndvi_uses_stored_model {I} (geom : json) (field_id : I) (w : world)
    (v : bytes) (clf : classifier) (vals : list pyfloat) (dates : list Z) :
  get_ndvi_tseries search mosaic minval geom Calendar.default_start Calendar.default_end
  = inr (vals, dates) ->
  dl_storage w !! "classifier.joblib" = Some v -> unpickle v = Some clf ->
  "classifier.joblib" ∉ dirs w ->
  let run := classify_ndvi search mosaic minval unpickle geom field_id w in
  run.1 = inr (clf vals, field_id)
  /\ files run.2 = <["classifier.joblib" := v]> (files w)
  /\ calls run.2 = calls w ++ [StorageGetFile "classifier.joblib" "classifier.joblib"].
Proof.
  intros Hts Hstore Hclf Hdir run. subst run.
  assert (Hd : bool_decide ("classifier.joblib" ∈ dirs w) = false)
    by by apply bool_decide_eq_false.
  unfold classify_ndvi. unfold_io.
  rewrite Hts. cbn. rewrite Hstore, Hd. cbn.
  assert (Hdn : negb (bool_decide (Path.dirname "classifier.joblib" = "/")
                      || bool_decide (Path.dirname "classifier.joblib" = "")
                      || bool_decide (Path.dirname "classifier.joblib" ∈ dirs w)) = false).
  { change (Path.dirname "classifier.joblib") with "".
    rewrite (bool_decide_eq_true_2 ("" = "")) by done. by rewrite orb_true_r. }
  rewrite Hdn. cbn. rewrite lookup_insert_eq, Hclf. done.
Qed.

End CacheEdgeFacts.

(** * Further properties of the index and the cloud mask *)

(** A pixel whose nir and red values sum to zero (as where both are 0)
    gets a masked index: the division is never carried out on a zero
    denominator. *)
Theorem ndvi_zero_sum_masked (s : stack) (t i j : nat) (red nir : mval) :
  at3 (take_band 0 s) t i j = Some red ->
  at3 (take_band 1 s) t i j = Some nir ->
  (m_data nir + m_data red == 0)%Q ->
  exists v, at3 (compute_ndvi s) t i j = Some v /\ m_mask v = true.
Proof.
  intros Hr Hn Hz. eexists. split.
  { unfold compute_ndvi. apply at3_zip_with; apply at3_zip_with; eassumption. }
  unfold ma_div, ma_add, ma_sub. simpl.
  destruct (m_mask nir || m_mask red) eqn:E; [by rewrite orb_true_r|].
  apply Qeq_eq_bool in Hz. by rewrite Hz.
Qed.

(** ** The masking step as an operation on stacks *)

Lemma band_shape_zip {A} (f : mval -> A -> mval) (H W : nat) (b : band) (c : list (list A)) :
  band_shape H W b -> length c = H -> Forall (fun row => length row = W) c ->
  band_shape H W (ew2 f b c).
Proof.
  intros [Hb Hrb] Hc Hrc. unfold ew2. split.
  - rewrite length_zip_with. lia.
  - subst H. revert c Hc Hrc.
    induction Hrb as [|row b Hrow Hrb IH]; intros [|crow c] Hc Hrc; simpl in *;
      try constructor.
    + apply Forall_cons in Hrc as [Hcrow _]. rewrite length_zip_with. lia.
    + apply Forall_cons in Hrc as [_ Hrc]. apply IH; [lia | done].
Qed.

Lemma mask_pixel_twice (b c : band) :
  Forall2 (fun r rc => length r = length rc) b c ->
  ew2 mask_pixel (ew2 mask_pixel b c) (ew2 mask_pixel c c) = ew2 mask_pixel b c.
Proof.
  unfold ew2. induction 1 as [|r rc b c Hlen Hbc IH]; simpl; [done|].
  rewrite IH. f_equal. clear IH Hbc. revert rc Hlen.
  induction r as [|v r IHr]; intros [|cv rc] Hlen; simpl in *; try done.
  rewrite IHr by lia. f_equal. unfold mask_pixel. simpl. f_equal.
  by destruct (m_mask v), (Qeq_bool (m_data cv) cloud_flag).
Qed.

Lemma same_band_shape (H W : nat) (b c : band) :
  band_shape H W b -> band_shape H W c ->
  Forall2 (fun r rc => length r = length rc) b c.
Proof.
  intros [Hb Hrb] [Hc Hrc]. subst H. revert c Hc Hrc.
  induction Hrb as [|row b Hrow Hrb IH]; intros [|crow c] Hc Hrc; simpl in *;
    try done; try constructor.
  - apply Forall_cons in Hrc as [Hcrow _]. lia.
  - apply Forall_cons in Hrc as [_ Hrc]. apply IH; [lia | done].
Qed.

Lemma masked_image_shape (B H W : nat) (img : image) :
  image_shape B H W img -> image_shape B H W (masked_image img).
Proof.
  intros Himg. pose proof Himg as [Hl Hbands]. unfold masked_image. split.
  - by rewrite length_map.
  - apply Forall_map, Forall_lookup_2. intros k b Hkb. simpl.
    assert (HB : (0 < B)%nat) by (apply lookup_lt_Some in Hkb; lia).
    destruct (image_shape_last B H W _ Himg HB) as (c & Hlast & _ & [Hc Hrc]).
    rewrite Hlast. simpl.
    apply band_shape_zip; [|done..].
    exact (proj1 (Forall_lookup _ _) Hbands _ _ Hkb).
Qed.

(** On a rectangular stack the masking step keeps the shape and is
    idempotent: masking a masked stack again changes nothing. *)
Theorem mask_clouds_idempotent (T B H W : nat) (s : stack) :
  has_shape T B H W s ->
  has_shape T B H W (mask_clouds s)
  /\ mask_clouds (mask_clouds s) = mask_clouds s.
Proof.
  intros Hs.
  assert (Hs' : has_shape T B H W (mask_clouds s)).
  { rewrite (mask_clouds_by_band s) by (eapply has_shape_bands; eassumption).
    destruct Hs as [HT Himgs]. split; [by rewrite length_map|].
    apply Forall_map. eapply Forall_impl; [exact Himgs|].
    intros img Himg. apply (masked_image_shape B H W img Himg). }
  split; [exact Hs'|].
  rewrite (mask_clouds_by_band (mask_clouds s)) by (eapply has_shape_bands; eassumption).
  rewrite (mask_clouds_by_band s) by (eapply has_shape_bands; eassumption).

  etrans; [apply List.map_map|]. apply map_ext_Forall.
  destruct Hs as [_ Himgs]. eapply Forall_impl; [exact Himgs|].
  intros img Himg. simpl.
  rewrite List.map_map. apply map_ext_Forall, Forall_lookup_2. intros k b Hkb.
  pose proof Himg as [Hl Hbands].
  assert (HB : (0 < B)%nat) by (apply lookup_lt_Some in Hkb; lia).
  destruct (image_shape_last B H W _ Himg HB) as (c & Hlast & _ & Hc).
  change (map ?f img) with (f <$> img). rewrite fmap_last, Hlast. simpl.
  apply mask_pixel_twice, (same_band_shape H W); [|done].
  exact (proj1 (Forall_lookup _ _) Hbands _ _ Hkb).
Qed.

(** * The daily aggregate *)

Lemma insert_by_perm {A} (key : A -> Q) (x : A) (l : list A) :
  insert_by key x l ≡ₚ x :: l.
Proof.
  induction l as [|y l IH]; simpl; [done|].
  destruct (Qle_bool (key x) (key y)); [done|].
  rewrite IH. apply Permutation_swap.
Qed.

Lemma sort_by_perm {A} (key : A -> Q) (l : list A) : sort_by key l ≡ₚ l.
Proof.
  unfold sort_by. induction l as [|x l IH]; simpl; [done|].
  by rewrite insert_by_perm, IH.
Qed.

(** A valid median lies within any bounds that the valid entries keep. *)
Lemma ma_median_between (l : list mval) (lo hi : Q) :
  Forall (fun v => m_mask v = false -> lo <= m_data v <= hi)%Q l ->
  m_mask (ma_median l) = false ->
  (lo <= m_data (ma_median l) <= hi)%Q.
Proof.
  intros Hl. unfold ma_median.
  assert (Hs : Forall (fun q => lo <= q <= hi)%Q (sort_by id (compressed l))).
  { rewrite sort_by_perm. unfold compressed. apply Forall_map.
    apply Forall_forall. intros v Hv. apply list_elem_of_filter in Hv as [Hm Hv].
    exact (proj1 (Forall_forall _ _) Hl v Hv Hm). }
  destruct (sort_by id (compressed l)) as [|q0 qs] eqn:E; [done|]. intros _.
  set (asorted := q0 :: qs) in *.
  assert (Hpos : (0 < length asorted)%nat) by (simpl; lia).
  assert (Hh : (length asorted / 2 < length asorted)%nat)
    by (apply Nat.div_lt; lia).
  pose proof (Forall_nth (fun q => lo <= q <= hi)%Q 0%Q asorted) as Hnth.
  pose proof (proj1 Hnth Hs (length asorted / 2)%nat Hh) as Hhigh.
  assert (Hl1 : (length asorted / 2 - 1 < length asorted)%nat).
  { generalize dependent (length asorted / 2)%nat. intros; lia. }
  pose proof (proj1 Hnth Hs (length asorted / 2 - 1)%nat Hl1) as Hlow.
  cbv beta in Hhigh, Hlow. cbv zeta. cbn [m_data].
  set (high := nth (length asorted / 2) asorted 0%Q) in *.
  set (low := nth (length asorted / 2 - 1) asorted 0%Q) in *.
  destruct (Nat.odd (length asorted)).
  - split; [apply Qle_shift_div_l | apply Qle_shift_div_r]; lra.
  - split; [apply Qle_shift_div_l | apply Qle_shift_div_r]; lra.
Qed.

Lemma Forall_zip_with_gen {A B C} (P : A -> Prop) (Q : B -> Prop) (R : C -> Prop)
    (f : A -> B -> C) (l : list A) (k : list B) :
  (forall x y, P x -> Q y -> R (f x y)) ->
  Forall P l -> Forall Q k -> Forall R (zip_with f l k).
Proof.
  intros Hf Hl. revert k.
  induction Hl as [|x l Hx Hl IH]; intros k Hk; simpl; [constructor|].
  destruct Hk as [|y k Hy Hk]; constructor; auto.
Qed.

(** A valid index of two non-negative values lies between -1 and 1: a
    zero sum is masked, every other sum is positive. *)
Lemma ndvi_pixel_nonneg_bounded (n r : mval) :
  (0 <= m_data n)%Q -> (0 <= m_data r)%Q ->
  m_mask (ndvi_pixel n r) = false ->
  (-1 <= m_data (ndvi_pixel n r) <= 1)%Q.
Proof.
  intros Hn Hr. unfold ndvi_pixel, ma_div, ma_add, ma_sub. simpl.
  destruct (m_mask n || m_mask r) eqn:Em; [by rewrite orb_true_r|].
  rewrite orb_false_r.
  destruct (Qeq_bool (m_data n + m_data r) 0) eqn:Ez; [done|]. intros _. simpl.
  apply Qeq_bool_neq in Ez.
  assert (Hs : (0 < m_data n + m_data r)%Q) by lra.
  split; [apply Qle_shift_div_l | apply Qle_shift_div_r]; lra.
Qed.

Lemma masked_band_nonneg (b c : band) :
  Forall (Forall (fun v => 0 <= m_data v)%Q) b ->
  Forall (Forall (fun v => 0 <= m_data v)%Q) (ew2 mask_pixel b c).
Proof.
  intros Hb. revert c. unfold ew2.
  induction Hb as [|row b Hrow Hb IH]; intros [|crow c]; simpl; try constructor; [|apply IH].
  clear IH Hb. revert crow.
  induction Hrow as [|v row Hv Hrow IHr]; intros [|cv crow]; simpl; try constructor;
    [done | apply IHr].
Qed.

Lemma nth_masked_image (img : image) (k : nat) :
  nth k (masked_image img) [] = ew2 mask_pixel (nth k img []) (default [] (last img)).
Proof.
  unfold masked_image.
  exact (map_nth (fun b => ew2 mask_pixel b (default [] (last img))) img [] k).
Qed.

Lemma ndvi_image_bounded (img : image) :
  Forall (Forall (fun v => 0 <= m_data v)%Q) (nth 0 img []) ->
  Forall (Forall (fun v => 0 <= m_data v)%Q) (nth 1 img []) ->
  Forall (Forall (fun v => m_mask v = false -> -1 <= m_data v <= 1)%Q) (ndvi_image img).
Proof.
  intros Hred Hnir. unfold ndvi_image, ew2. rewrite !nth_masked_image.
  apply (Forall_zip_with_gen (Forall (fun v => 0 <= m_data v)%Q)
                             (Forall (fun v => 0 <= m_data v)%Q));
    [| by apply masked_band_nonneg..].
  intros nrow rrow Hnrow Hrrow.
  apply (Forall_zip_with_gen (fun v => 0 <= m_data v)%Q (fun v => 0 <= m_data v)%Q);
    [| done..].
  intros n r Hn Hr. by apply ndvi_pixel_nonneg_bounded.
Qed.

Lemma ndvi_stack_by_image (s : stack) :
  Forall (fun img => length img = shape1 s) s ->
  compute_ndvi (mask_clouds s) = map ndvi_image s.
Proof.
  intros Hb. rewrite (mask_clouds_by_band s Hb).
  exact (compute_ndvi_fmap masked_image s).
Qed.

(** For non-negative red and nir values, every valid daily aggregate of
    the index lies between -1 and 1 (whatever the cloud band says). *)
Theorem index_series_bounded (T B H W : nat) (s : stack) :
  has_shape T B H W s ->
  Forall (fun img : image =>
            Forall (Forall (fun v => 0 <= m_data v)%Q) (nth 0 img [])
            /\ Forall (Forall (fun v => 0 <= m_data v)%Q) (nth 1 img [])) s ->
  Forall (fun v => m_mask v = false -> -1 <= m_data v <= 1)%Q (index_series s).
Proof.
  intros Hs Hpos.
  rewrite (index_series_by_image s) by (eapply has_shape_bands; eassumption).
  apply Forall_map. eapply Forall_impl; [exact Hpos|].
  intros img [Hred Hnir]. simpl.
  by apply ma_median_between, Forall_concat, ndvi_image_bounded.
Qed.

(** * The frame after the collection loop *)

Section CollectorFrame.

Context {I : Type} `{EqDecision I}.

Lemma nodup_one_row (field_ids : list I) (l : I) :
  NoDup field_ids -> l ∈ field_ids ->
  loc_rows (map (fun fid => (fid, 0)) field_ids) l = 1%nat.
Proof.
  intros Hnd Hl. unfold loc_rows.
  induction Hnd as [|x xs Hx Hnd IH]; [by apply not_elem_of_nil in Hl|].
  cbn [map]. rewrite (filter_cons (fun row : I * Z => row.1 = l)). cbn [fst].
  destruct (decide (x = l)) as [->|Hne].
  - cbn [length]. f_equal.
    destruct (filter _ _) as [|p ps] eqn:E; [done|]. exfalso. apply Hx.
    assert (Hp : p ∈ p :: ps) by (by left). rewrite <- E in Hp.
    apply list_elem_of_filter in Hp as [Hp1 Hp2].
    change (map ?f xs) with (f <$> xs) in Hp2.
    apply list_elem_of_fmap in Hp2 as (y & -> & Hy). simpl in Hp1. by subst.
  - apply IH. apply elem_of_cons in Hl as [->|Hl]; done.
Qed.

(** The loop over the completed tasks, when every success carries a label
    of the index.  It runs to its end exactly when each of these labels
    names one row; otherwise it is ended by the ValueError of the
    assignment, and by no other exception.  Either way the index is as
    before.  When the loop runs to its end, a row whose label had a
    success holds the class of the last such success to complete, every
    other row - of a failed task, or of no task - keeps its class, and
    [failed_tasks] holds the tasks that raised, in completion order. *)
Theorem collect_frame (completed : list (task I)) (df : frame I) :
  Forall (fun r => r.2 ∈ df.*1) (successes completed) ->
  let run := collect completed df in
  (raised run = None
   <-> Forall (fun r => loc_rows df r.2 = 1%nat) (successes completed))
  /\ (forall e, raised run = Some e ->
        e = ValueError "Must have equal len keys and value when setting with an iterable")
  /\ (df_end run).*1 = df.*1
  /\ (raised run = None ->
      df_end run
      = map (fun row =>
               (row.1, default row.2
                         (fst <$> last (filter (fun r => r.2 = row.1)
                                               (successes completed))))) df
      /\ failed_tasks run = filter (fun t => is_success t = false) completed).
Proof.
  intros Hin run. subst run. unfold collect.
  destruct (collect_loop_stops completed df [] Hin)
    as (j & Hj & Hone & Hdf & Hfail & Hend).
  assert (Hdone : raised (collect_loop completed df []) = None ->
                  take j completed = completed).
  { intros Hnone. destruct Hend as [[_ ->]|[Hraise _]]; [|congruence].
    by apply take_ge. }
  split; [split|split; [|split]].
  - intros Hnone. by rewrite <- (Hdone Hnone).
  - intros Hall. by rewrite (collect_loop_completes completed df [] Hall).
  - intros e He. destruct Hend as [[Hnone _]|[Hraise _]]; congruence.
  - by rewrite Hdf, writes_index.
  - intros Hnone. rewrite Hdf, Hfail, (Hdone Hnone). by rewrite writes_by_row.
Qed.

Lemma last_filter_agree (P : Z * I -> Prop) `{forall r, Decision (P r)}
    (s1 s2 : list (Z * I)) :
  s1 ≡ₚ s2 ->
  (forall r r', r ∈ s1 -> r' ∈ s1 -> P r -> P r' -> r.1 = r'.1) ->
  fst <$> last (filter P s1) = fst <$> last (filter P s2).
Proof.
  intros Hperm Hagree.
  assert (Hf : filter P s1 ≡ₚ filter P s2) by (by rewrite Hperm).
  destruct (last (filter P s1)) as [r1|] eqn:E1, (last (filter P s2)) as [r2|] eqn:E2;
    simpl.
  - f_equal. apply last_Some_elem_of in E1, E2.
    apply list_elem_of_filter in E1 as [HP1 Hr1], E2 as [HP2 Hr2].
    apply Hagree; [done | by rewrite Hperm | done..].
  - apply last_None in E2. rewrite E2 in Hf. apply Permutation_nil_r in Hf.
    rewrite Hf in E1. done.
  - apply last_None in E1. rewrite E1 in Hf. symmetry in Hf.
    apply Permutation_nil_r in Hf. rewrite Hf in E2. done.
  - done.
Qed.

(** When each label written names one row of the frame, the order of
    completion does not matter, as long as the successes for one label
    agree on the class (as when every field is submitted once): in either
    order the loop runs to its end and leaves the same frame, and the
    failed list holds the same tasks, in completion order. *)
Theorem collect_order_independent (completed1 completed2 : list (task I)) (df : frame I) :
  completed1 ≡ₚ completed2 ->
  Forall (fun r => loc_rows df r.2 = 1%nat) (successes completed1) ->
  (forall r r', r ∈ successes completed1 -> r' ∈ successes completed1 ->
                r.2 = r'.2 -> r.1 = r'.1) ->
  raised (collect completed1 df) = None
  /\ raised (collect completed2 df) = None
  /\ df_end (collect completed1 df) = df_end (collect completed2 df)
  /\ failed_tasks (collect completed1 df) ≡ₚ failed_tasks (collect completed2 df).
Proof.
  intros Hperm Hone Hagree.
  assert (Hsucc : successes completed1 ≡ₚ successes completed2)
    by (unfold successes; by rewrite Hperm).
  assert (Hone2 : Forall (fun r => loc_rows df r.2 = 1%nat) (successes completed2))
    by (by rewrite <- Hsucc).
  unfold collect.
  rewrite (collect_loop_completes completed1 df [] Hone).
  rewrite (collect_loop_completes completed2 df [] Hone2).
  cbn [raised df_end failed_tasks app].
  split; [done|]. split; [done|]. split.
  - rewrite !writes_by_row.
    apply map_ext. intros [l c]. simpl. f_equal. f_equal.
    apply last_filter_agree; [done|].
    intros r r' Hr Hr' Hl Hl'. apply Hagree; [done..|]. congruence.
  - by rewrite Hperm.
Qed.

End CollectorFrame.

(** * Fan-out over the worker pool, then collection *)

Section FanOut.

Variable search : json -> Z -> Z -> exn + list scene.
Variable mosaic : list image -> image.
Variable minval : nat.
Variable unpickle : bytes -> option classifier.

Context {I : Type} `{EqDecision I}.

(** A result of [classify_ndvi] carries the field id it was called with. *)
Lemma classify_ndvi_field_id (geom : json) (field_id : I) (w : world) (r : Z * I) :
  (classify_ndvi search mosaic minval unpickle geom field_id w).1 = inr r ->
  r.2 = field_id.
Proof.
  unfold classify_ndvi. unfold_io. intros Hrun.
  repeat (case_match; simplify_eq; simpl in *; try done).
Qed.

Lemma successes_outcome (completed : list (task I)) (r : Z * I) :
  r ∈ successes completed -> inr r ∈ map outcome completed.
Proof.
  unfold successes. rewrite list_elem_of_omap. intros (t & Ht & Hr).
  destruct (outcome t) as [e|r'] eqn:E; [done|]. injection Hr as ->.
  rewrite <- E. change (map outcome completed) with (outcome <$> completed).
  by apply list_elem_of_fmap_2.
Qed.

(** The tasks of [async_func.map(geoms_predict, field_ids_predict)]
    collected into the frame indexed by those field ids, every class 0 at
    the start.  [runs] lists, in completion order, the geometry and field
    id each task was submitted with and the worker it ran on.  Whatever
    the order and the workers, and whether the loop runs to its end or is
    ended by the ValueError of an assignment to a repeated field id: the
    index stays the list of field ids, and a class found in the row of a
    field is either the initial 0 or was predicted by a task submitted
    with that very field id.  With no field id repeated the loop runs to
    its end. *)
Theorem fan_out_attribution (runs : list (json * I * world)) (completed : list (task I))
    (field_ids : list I) :
  map outcome completed
  = map (fun r => (classify_ndvi search mosaic minval unpickle r.1.1 r.1.2 r.2).1) runs ->
  Forall (fun r => r.1.2 ∈ field_ids) runs ->
  let df := map (fun fid => (fid, 0)) field_ids in
  (df_end (collect completed df)).*1 = field_ids
  /\ (NoDup field_ids -> raised (collect completed df) = None)
  /\ forall fid c,
       (fid, c) ∈ df_end (collect completed df) ->
       c = 0
       \/ exists geom w,
            (geom, fid, w) ∈ runs
            /\ (classify_ndvi search mosaic minval unpickle geom fid w).1 = inr (c, fid).
Proof.
  intros Hout Hids df.
  assert (Hdf : df.*1 = field_ids).
  { unfold df. change (map ?f field_ids) with (f <$> field_ids).
    rewrite <- list_fmap_compose. rewrite <- (list_fmap_id field_ids) at 2.
    by apply list_fmap_ext. }
  assert (Hrun : forall r, r ∈ successes completed ->
            exists geom w, (geom, r.2, w) ∈ runs
              /\ (classify_ndvi search mosaic minval unpickle geom r.2 w).1 = inr r).
  { intros r Hr. apply successes_outcome in Hr. rewrite Hout in Hr.
    change (map ?f runs) with (f <$> runs) in Hr.
    apply list_elem_of_fmap in Hr as ([[geom fid] w] & Heq & Hin). simpl in Heq.
    symmetry in Heq. pose proof (classify_ndvi_field_id _ _ _ _ Heq) as Hfid.
    exists geom, w. rewrite Hfid. done. }
  assert (Hin : Forall (fun r => r.2 ∈ df.*1) (successes completed)).
  { apply Forall_forall. intros r Hr. rewrite Hdf.
    destruct (Hrun r Hr) as (geom & w & Hmem & _).
    exact (proj1 (Forall_forall _ _) Hids _ Hmem). }
  unfold collect.
  destruct (collect_loop_stops completed df [] Hin)
    as (j & Hj & _ & Hframe & _ & _).
  split; [by rewrite Hframe, writes_index|]. split.
  { intros Hnd. rewrite (collect_loop_completes completed df []); [done|].
    eapply Forall_impl; [exact Hin|]. intros r Hr. simpl in Hr.
    rewrite Hdf in Hr. by apply nodup_one_row. }
  assert (Hsub : forall r, r ∈ successes (take j completed) -> r ∈ successes completed).
  { intros r. unfold successes. rewrite !list_elem_of_omap.
    intros (t & Ht & Hr). exists t. split; [|done].
    apply list_elem_of_lookup in Ht as [i Hi]. apply lookup_take_Some in Hi as [Hi _].
    by apply list_elem_of_lookup_2 in Hi. }
  intros fid c Hrow. rewrite Hframe, writes_by_row in Hrow.
  change (map ?f df) with (f <$> df) in Hrow.
  apply list_elem_of_fmap in Hrow as ([l c0] & Heq & Hmem). simpl in Heq.
  injection Heq as -> ->.
  assert (Hc0 : c0 = 0).
  { unfold df in Hmem. change (map ?f field_ids) with (f <$> field_ids) in Hmem.
    apply list_elem_of_fmap in Hmem as (x & Hx & _). by injection Hx. }
  destruct (last (filter (fun r => r.2 = l) (successes (take j completed)))) as [r|] eqn:E;
    simpl; [|by left].
  right. apply last_Some_elem_of, list_elem_of_filter in E as [Hl Hr].
  destruct (Hrun r (Hsub r Hr)) as (geom & w & Hmem' & Heq).
  exists geom, w. rewrite <- Hl. split; [done|]. by destruct r.
Qed.

End FanOut.

(** * The maximum composite *)

Lemma at2_ew2_inv {A B C} (f : A -> B -> C) (a : list (list A)) (b : list (list B))
    (i j : nat) (z : C) :
  at2 (ew2 f a b) i j = Some z ->
  exists x y, at2 a i j = Some x /\ at2 b i j = Some y /\ z = f x y.
Proof.
  unfold at2, ew2. intros Hz.
  destruct (zip_with (zip_with f) a b !! i) as [row|] eqn:Erow; [|done].
  apply lookup_zip_with_Some in Erow as (ra & rb & -> & Ha & Hb).
  apply lookup_zip_with_Some in Hz as (x & y & -> & Hx & Hy).
  exists x, y. by rewrite Ha, Hb.
Qed.

(** A pixel of a fold of element-wise operations is the fold of the
    pixels. *)
Lemma at2_foldl_ew2 {A} (f : A -> A -> A) (bs : list (list (list A))) (b0 : list (list A))
    (i j : nat) (z : A) :
  at2 (foldl (ew2 f) b0 bs) i j = Some z ->
  exists x0 xs, at2 b0 i j = Some x0
    /\ Forall2 (fun b x => at2 b i j = Some x) bs xs
    /\ z = foldl f x0 xs.
Proof.
  revert b0. induction bs as [|b bs IH]; intros b0 Hz; simpl in *.
  - exists z, []. split; [done|]. split; [constructor | done].
  - destruct (IH _ Hz) as (x1 & xs & H1 & Hxs & ->).
    apply at2_ew2_inv in H1 as (x0 & x & Hx0 & Hx & ->).
    exists x0, (x :: xs). split; [done|]. split; [by constructor | done].
Qed.

Lemma Forall2_at2_fmap {A B} (g : A -> B) (bs : list (list (list A))) (ys : list B)
    (i j : nat) :
  Forall2 (fun b y => at2 b i j = Some y) (map (map (map g)) bs) ys ->
  exists xs, Forall2 (fun b x => at2 b i j = Some x) bs xs /\ ys = map g xs.
Proof.
  revert ys. induction bs as [|b bs IH]; intros ys Hys; simpl in *.
  - apply Forall2_nil_inv_l in Hys as ->. exists []. split; [constructor | done].
  - apply Forall2_cons_inv_l in Hys as (y & ys' & Hy & Hys & ->).
    destruct (IH _ Hys) as (xs & Hxs & ->).
    rewrite at2_fmap in Hy. apply fmap_Some in Hy as (x & Hx & ->).
    exists (x :: xs). split; [by constructor | done].
Qed.

Lemma Forall2_at2_unique {A} (bs : list (list (list A))) (xs xs' : list A) (i j : nat) :
  Forall2 (fun b x => at2 b i j = Some x) bs xs ->
  Forall2 (fun b x => at2 b i j = Some x) bs xs' ->
  xs = xs'.
Proof.
  intros H. revert xs'. induction H as [|b x bs xs Hx Hxs IH]; intros xs' H'.
  - by apply Forall2_nil_inv_l in H'.
  - apply Forall2_cons_inv_l in H' as (x' & xs'' & Hx' & Hxs' & ->).
    f_equal; [congruence | by apply IH].
Qed.

Lemma at3_column {A} (a : list (list (list A))) (ps : list A) (i j t : nat) (p : A) :
  Forall2 (fun b x => at2 b i j = Some x) a ps ->
  at3 a t i j = Some p <-> ps !! t = Some p.
Proof.
  intros Hcol. unfold at3. split.
  - destruct (a !! t) as [b|] eqn:E; [|done]. intros Hp.
    destruct (Forall2_lookup_l _ _ _ _ _ Hcol E) as (x & Hx & Hbx). congruence.
  - intros Hp. destruct (Forall2_lookup_r _ _ _ _ _ Hcol Hp) as (b & -> & Hb). done.
Qed.

Lemma foldl_andb_true (m0 : bool) (ms : list bool) :
  foldl andb m0 ms = true <-> m0 = true /\ Forall (fun m => m = true) ms.
Proof.
  revert m0. induction ms as [|m ms IH]; intros m0; simpl.
  - split; [intros ->; by split | by intros [-> _]].
  - rewrite IH, Forall_cons, andb_true_iff. tauto.
Qed.

Lemma fmax_upper (a b : option Q) (q : Q) :
  a = Some q \/ b = Some q -> exists q', fmax a b = Some q' /\ (q <= q')%Q.
Proof.
  destruct a as [p|], b as [r|]; simpl; intros [Hq|Hq]; simplify_eq;
    try (eexists; split; [reflexivity | lra]).
  - destruct (Qle_bool q r) eqn:E; eexists; (split; [reflexivity|]);
      [by apply Qle_bool_iff | lra].
  - destruct (Qle_bool p q) eqn:E; eexists; (split; [reflexivity|]); [lra|].
    apply not_true_iff_false in E. rewrite Qle_bool_iff in E. lra.
Qed.

Lemma fmax_choice (a b : option Q) : fmax a b = a \/ fmax a b = b.
Proof.
  destruct a as [p|], b as [r|]; simpl; auto. destruct (Qle_bool p r); auto.
Qed.

(** The running maximum is one of the entries and not below any. *)
Lemma foldl_fmax_Some (d0 : option Q) (ds : list (option Q)) (q : Q) :
  foldl fmax d0 ds = Some q ->
  Some q ∈ d0 :: ds /\ forall q', Some q' ∈ d0 :: ds -> (q' <= q)%Q.
Proof.
  revert d0. induction ds as [|d ds IH]; intros d0 Hq; simpl in *.
  - subst d0. split; [by left|]. intros q' Hq'.
    apply list_elem_of_singleton in Hq'. injection Hq' as ->. lra.
  - destruct (IH _ Hq) as [Hmem Hub]. split.
    + apply elem_of_cons in Hmem as [Hhd|Htl].
      * destruct (fmax_choice d0 d) as [Hc|Hc]; rewrite Hc in Hhd.
        -- rewrite Hhd. by left.
        -- rewrite Hhd. right. by left.
      * right. by right.
    + intros q' Hq'.
      assert (Hcase : (d0 = Some q' \/ d = Some q') \/ Some q' ∈ ds).
      { apply elem_of_cons in Hq' as [Hq'|Hq']; [by left; left|].
        apply elem_of_cons in Hq' as [Hq'|Hq']; [by left; right | by right]. }
      destruct Hcase as [Hnow|Hlater].
      * destruct (fmax_upper d0 d q' Hnow) as (q'' & Hf & Hle).
        assert (q'' <= q)%Q by (apply Hub; rewrite Hf; by left). lra.
      * apply Hub. by right.
Qed.

Lemma foldl_fmax_None (d0 : option Q) (ds : list (option Q)) :
  foldl fmax d0 ds = None -> d0 = None /\ Forall (fun d => d = None) ds.
Proof.
  revert d0. induction ds as [|d ds IH]; intros d0 Hq; simpl in *; [by split|].
  destruct (IH _ Hq) as [Hnow Hds].
  destruct d0 as [p|], d as [r|]; simpl in Hnow; try done.
  split; [done|]. by constructor.
Qed.

(** One pixel of the composite, in terms of the column of that pixel over
    the days. *)
Lemma ma_max0_pixel (a : list band) (r : band) (i j : nat) (v : mval) :
  ma_max0 a = inr r -> at2 r i j = Some v ->
  exists p0 ps,
    Forall2 (fun b p => at2 b i j = Some p) a (p0 :: ps)
    /\ v = MVal (if foldl andb (m_mask p0) (map m_mask ps) then default_fill_value
                 else default 0%Q (foldl fmax (filled_low p0) (map filled_low ps)))
                (foldl andb (m_mask p0) (map m_mask ps)).
Proof.
  unfold ma_max0. destruct a as [|b0 bs]; [done|]. intros Hr Hv.
  injection Hr as <-.
  apply at2_ew2_inv in Hv as (d & m & Hd & Hm & ->).
  apply at2_foldl_ew2 in Hd as (d0 & ds & Hd0 & Hds & ->).
  apply at2_foldl_ew2 in Hm as (m0 & ms & Hm0 & Hms & ->).
  rewrite at2_fmap in Hd0. rewrite at2_fmap in Hm0.
  apply fmap_Some in Hd0 as (p0 & Hp0 & ->).
  apply fmap_Some in Hm0 as (p0' & Hp0' & ->).
  assert (p0' = p0) as -> by congruence.
  apply Forall2_at2_fmap in Hds as (ps & Hps & ->).
  apply Forall2_at2_fmap in Hms as (ps' & Hps' & ->).
  assert (ps' = ps) as -> by (eapply Forall2_at2_unique; eassumption).
  exists p0, ps. split; [by constructor | done].
Qed.

(** A pixel of the maximum composite is masked exactly when it is masked
    on every day, and its datum is then the fill value. *)
Theorem max_composite_mask (a : list band) (r : band) (i j : nat) (v : mval) :
  ma_max0 a = inr r -> at2 r i j = Some v ->
  (m_mask v = true <-> forall t p, at3 a t i j = Some p -> m_mask p = true)
  /\ (m_mask v = true -> m_data v = default_fill_value).
Proof.
  intros Hr Hv. destruct (ma_max0_pixel a r i j v Hr Hv) as (p0 & ps & Hcol & ->).
  cbn [m_mask m_data]. split.
  - rewrite foldl_andb_true. split.
    + intros [H0 Hall] t p Hp. apply (at3_column _ _ _ _ _ _ Hcol) in Hp.
      destruct t as [|t]; simpl in Hp; [congruence|].
      apply Forall_map in Hall.
      exact (proj1 (Forall_lookup _ _) Hall _ _ Hp).
    + intros Hall. split.
      * apply (Hall 0%nat). by apply (at3_column _ _ _ _ _ _ Hcol).
      * apply Forall_map, Forall_lookup_2. intros t p Hp.
        apply (Hall (S t)). by apply (at3_column _ _ _ _ _ _ Hcol).
  - by intros ->.
Qed.

Lemma foldl_fmax_valid (p0 : mval) (ps : list mval) :
  foldl andb (m_mask p0) (map m_mask ps) = false ->
  exists q, foldl fmax (filled_low p0) (map filled_low ps) = Some q.
Proof.
  intros Hm.
  destruct (foldl fmax (filled_low p0) (map filled_low ps)) as [q|] eqn:E; [by exists q|].
  (* every entry filled with minus infinity: the new mask would be set *)
  exfalso. apply foldl_fmax_None in E as [E0 Eall].
  apply not_true_iff_false in Hm. apply Hm, foldl_andb_true. split.
  - unfold filled_low in E0. by destruct (m_mask p0).
  - apply Forall_map. apply Forall_map in Eall.
    eapply Forall_impl; [exact Eall|]. intros p Hp. simpl in Hp.
    unfold filled_low in Hp. by destruct (m_mask p).
Qed.

(** A valid pixel of the composite holds the value of a valid entry of
    that pixel on some day. *)
Lemma ma_max0_attained (a : list band) (r : band) (i j : nat) (v : mval) :
  ma_max0 a = inr r -> at2 r i j = Some v -> m_mask v = false ->
  exists t p, at3 a t i j = Some p /\ m_mask p = false /\ m_data v = m_data p.
Proof.
  intros Hr Hv. destruct (ma_max0_pixel a r i j v Hr Hv) as (p0 & ps & Hcol & ->).
  cbn [m_mask m_data]. intros Hm. rewrite Hm.
  destruct (foldl_fmax_valid p0 ps Hm) as [q E]. rewrite E. simpl.
  destruct (foldl_fmax_Some _ _ _ E) as [Hmem _].
  change (filled_low p0 :: map filled_low ps) with (filled_low <$> p0 :: ps) in Hmem.
  apply list_elem_of_fmap in Hmem as (p & Hp & Hin).
  apply list_elem_of_lookup in Hin as [t Ht].
  exists t, p. split; [by apply (at3_column _ _ _ _ _ _ Hcol)|].
  unfold filled_low in Hp. destruct (m_mask p); [done|]. by injection Hp as ->.
Qed.

(** Where the composite is valid, its value is that of a valid entry of
    the pixel on some day, and no valid entry of the pixel exceeds it. *)
Theorem max_composite_value (a : list band) (r : band) (i j : nat) (v : mval) :
  ma_max0 a = inr r -> at2 r i j = Some v -> m_mask v = false ->
  (exists t p, at3 a t i j = Some p /\ m_mask p = false /\ m_data v = m_data p)
  /\ (forall t p, at3 a t i j = Some p -> m_mask p = false -> (m_data p <= m_data v)%Q).
Proof.
  intros Hr Hv Hm. split; [by eapply ma_max0_attained|]. revert Hm.
  destruct (ma_max0_pixel a r i j v Hr Hv) as (p0 & ps & Hcol & ->).
  cbn [m_mask m_data]. intros Hm. rewrite Hm.
  destruct (foldl_fmax_valid p0 ps Hm) as [q E]. rewrite E. simpl.
  destruct (foldl_fmax_Some _ _ _ E) as [_ Hub].
  change (filled_low p0 :: map filled_low ps) with (filled_low <$> p0 :: ps) in Hub.
  intros t p Hp Hvalid. apply (at3_column _ _ _ _ _ _ Hcol) in Hp.
  apply Hub. apply list_elem_of_fmap. exists p.
  split; [unfold filled_low; by rewrite Hvalid | by eapply list_elem_of_lookup_2].
Qed.

(** For at least one day of non-negative red and nir values the
    composite of the index is built, and each of its valid pixels lies
    between -1 and 1. *)
Theorem max_ndvi_bounded (T B H W : nat) (s : stack) :
  has_shape T B H W s -> (0 < T)%nat ->
  Forall (fun img : image =>
            Forall (Forall (fun v => 0 <= m_data v)%Q) (nth 0 img [])
            /\ Forall (Forall (fun v => 0 <= m_data v)%Q) (nth 1 img [])) s ->
  exists r, max_ndvi s = inr r
    /\ Forall (Forall (fun v => m_mask v = false -> -1 <= m_data v <= 1)%Q) r.
Proof.
  intros Hs HT Hpos. unfold max_ndvi.
  rewrite (ndvi_stack_by_image s) by (eapply has_shape_bands; eassumption).
  destruct (ma_max0 (map ndvi_image s)) as [e|r] eqn:Hr.
  { destruct Hs as [Hlen _]. destruct s; simpl in *; [lia | done]. }
  exists r. split; [done|].
  apply Forall_lookup_2. intros i row Hrow.
  apply Forall_lookup_2. intros j v Hv Hvalid.
  assert (Hat : at2 r i j = Some v) by (unfold at2; by rewrite Hrow).
  destruct (ma_max0_attained _ r i j v Hr Hat Hvalid) as (t & p & Hp & Hpv & ->).
  unfold at3 in Hp. change (map ndvi_image s) with (ndvi_image <$> s) in Hp.
  rewrite list_lookup_fmap in Hp.
  destruct (s !! t) as [img|] eqn:Eimg; [|done]. simpl in Hp.
  destruct (proj1 (Forall_lookup _ _) Hpos _ _ Eimg) as [Hred Hnir].
  pose proof (ndvi_image_bounded img Hred Hnir) as Hb.
  unfold at2 in Hp. destruct (ndvi_image img !! i) as [irow|] eqn:Eirow; [|done].
  pose proof (proj1 (Forall_lookup _ _) Hb _ _ Eirow) as Hbrow.
  exact (proj1 (Forall_lookup _ _) Hbrow _ _ Hp Hpv).
Qed.

Section FlaskEdgeFacts.

Variable search : json -> Z -> Z -> exn + list scene.
Variable mosaic : list image -> image.
Variable minval : nat.
Variable unpickle : bytes -> option classifier.


End FlaskEdgeFacts.

(** * The grouping of the scenes by day *)

Lemma concat_filter_cons {A K} `{EqDecision K} (f : A -> K) (x : A) (l : list A)
    (ks : list K) :
  NoDup ks ->
  concat (map (fun k => filter (fun y => f y = k) (x :: l)) ks)
  ≡ₚ (if decide (f x ∈ ks) then [x] else [])
     ++ concat (map (fun k => filter (fun y => f y = k) l) ks).
Proof.
  induction 1 as [|k ks Hk Hks IH].
  - cbn [map concat]. destruct (decide (f x ∈ [])) as [Hin|_]; [|done].
    by apply not_elem_of_nil in Hin.
  - cbn [map concat]. rewrite IH, filter_cons.
    destruct (decide (f x = k)) as [Hfx|Hfx].
    + destruct (decide (f x ∈ ks)) as [Hin|_]; [by rewrite Hfx in Hin|].
      destruct (decide (f x ∈ k :: ks)) as [_|Hout]; [done|].
      exfalso. apply Hout. rewrite Hfx. by left.
    + destruct (decide (f x ∈ ks)) as [Hin|Hin].
      * destruct (decide (f x ∈ k :: ks)) as [_|Hout];
          [|exfalso; apply Hout; by right].
        cbn [app]. by rewrite Permutation_middle.
      * destruct (decide (f x ∈ k :: ks)) as [Hmem|_]; [|done].
        apply elem_of_cons in Hmem as [?|?]; done.
Qed.

Lemma concat_filter_partition {A K} `{EqDecision K} (f : A -> K) (l : list A) (ks : list K) :
  NoDup ks -> (forall x, x ∈ l -> f x ∈ ks) ->
  concat (map (fun k => filter (fun y => f y = k) l) ks) ≡ₚ l.
Proof.
  intros Hks. induction l as [|x l IH]; intros Hl.
  - clear. by induction ks as [|k ks IHk].
  - rewrite concat_filter_cons by done.
    destruct (decide (f x ∈ ks)) as [_|Hout]; [|exfalso; apply Hout, Hl; by left].
    cbn [app]. rewrite IH; [done|]. intros y Hy. apply Hl. by right.
Qed.

Lemma group_keys_spec (scenes : list scene) (d : Z) :
  d ∈ group_keys scenes <-> exists sc, sc ∈ scenes /\ sc_date sc = d.
Proof.
  unfold group_keys. rewrite elem_of_remove_dups, merge_sort_Permutation.
  change (map sc_date scenes) with (sc_date <$> scenes).
  rewrite list_elem_of_fmap. split; intros (sc & ? & ?); exists sc; done.
Qed.

(** The grouping by day splits the collection: the day keys come in
    strictly increasing order, no group is empty, a group holds scenes of
    its own day only, and together the groups hold every scene exactly
    once.  So the stack has one image for each day on which there is a
    scene. *)
Theorem groupby_day_partition (scenes : list scene) :
  StronglySorted Z.lt (map fst (groupby_day scenes))
  /\ Forall (fun g => g.2 <> [] /\ Forall (fun sc => sc_date sc = g.1) g.2)
            (groupby_day scenes)
  /\ concat (map snd (groupby_day scenes)) ≡ₚ scenes.
Proof.
  split; [rewrite groupby_day_keys; apply group_keys_increasing|]. split.
  - unfold groupby_day. apply Forall_map, Forall_forall. intros d Hd. simpl.
    apply group_keys_spec in Hd as (sc & Hsc & Hdate). split.
    + intros Hnil.
      assert (Hmem : sc ∈ filter (fun sc0 => sc_date sc0 = d) scenes)
        by (by apply list_elem_of_filter).
      rewrite Hnil in Hmem. by apply not_elem_of_nil in Hmem.
    + apply Forall_forall. intros sc' Hsc'. by apply list_elem_of_filter in Hsc' as [? _].
  - unfold groupby_day. rewrite map_map. simpl.
    apply concat_filter_partition.
    + unfold group_keys. apply NoDup_remove_dups.
    + intros sc Hsc. apply group_keys_spec. by exists sc.
Qed.

(** * Data under the mask *)

Lemma three_bands (s : stack) :
  Forall (fun img : image => length img = 3%nat) s ->
  Forall (fun img => length img = shape1 s) s.
Proof.
  intros H3. destruct H3 as [|img s' Hi Hs]; [constructor|].
  simpl. rewrite Hi. by constructor.
Qed.

Lemma ndvi_pixel_same_valid (n1 n2 r1 r2 : mval) :
  same_valid n1 n2 -> same_valid r1 r2 ->
  same_valid (ndvi_pixel n1 r1) (ndvi_pixel n2 r2).
Proof.
  intros [Hnm Hnd] [Hrm Hrd]. unfold same_valid, ndvi_pixel, ma_div, ma_add, ma_sub.
  cbn [m_mask m_data]. rewrite <- Hnm, <- Hrm.
  destruct (m_mask n1), (m_mask r1); cbn [orb];
    rewrite ?orb_true_r; try (split; [reflexivity | discriminate]).
  rewrite <- (Hnd eq_refl), <- (Hrd eq_refl). split; reflexivity.
Qed.

Lemma compressed_same_valid (l1 l2 : list mval) :
  Forall2 same_valid l1 l2 -> compressed l1 = compressed l2.
Proof.
  unfold compressed. induction 1 as [|v1 v2 l1 l2 [Hm Hd] Hl IH]; [done|].
  rewrite !filter_cons. rewrite <- Hm.
  destruct (decide (m_mask v1 = false)) as [Hv|Hv]; [|done].
  simpl. by rewrite IH, (Hd Hv).
Qed.

Lemma ndvi_image_same_valid (img1 img2 : image) :
  same_clear_image img1 img2 ->
  Forall2 (Forall2 same_valid) (ndvi_image img1) (ndvi_image img2).
Proof.
  intros (red1 & nir1 & red2 & nir2 & c & -> & -> & Hred & Hnir).
  unfold ndvi_image, masked_image. simpl.
  unfold ew2 at 1 4.
  apply Forall2_zip_with_rel with (RA := Forall2 same_valid) (RB := Forall2 same_valid);
    [| exact Hnir | exact Hred].
  intros n1 n2 r1 r2 Hn Hr.
  apply Forall2_zip_with_rel with (RA := same_valid) (RB := same_valid); [|done..].
  intros. by apply ndvi_pixel_same_valid.
Qed.

(** The data under the mask are never used: two stacks that agree on the
    cloud band and on every red and nir pixel that is neither masked in
    the scene nor flagged as cloud have the same daily index series. *)
Theorem masked_data_unused (s1 s2 : stack) :
  Forall2 same_clear_image s1 s2 -> index_series s1 = index_series s2.
Proof.
  intros H.
  assert (H3 : Forall (fun img : image => length img = 3%nat) s1
               /\ Forall (fun img : image => length img = 3%nat) s2).
  { induction H as [|i1 i2 s1 s2 (? & ? & ? & ? & ? & -> & -> & _) _ [IH1 IH2]];
      split; constructor; auto. }
  destruct H3 as [H1 H2].
  rewrite !index_series_by_image by (by apply three_bands).
  clear H1 H2. induction H as [|img1 img2 s1 s2 Himg Hs IH]; simpl; [done|].
  rewrite IH. f_equal. unfold ma_median.
  by rewrite (compressed_same_valid _ _
                (Forall2_concat_rel _ _ _ (ndvi_image_same_valid _ _ Himg))).
Qed.

(** Two days that differ in a pixel the scene masks and in a pixel the
    cloud band flags. *)
Lemma masked_data_unused_witness :
  index_series [ [ [[Sample.px 2; Sample.px 1]; [MVal 4 true; Sample.px 3]];
                   [[Sample.px 3; Sample.px 3]; [Sample.px 4; Sample.px 5]];
                   [[Sample.px 0; Sample.px 1]; [Sample.px 0; Sample.px 0]] ] ]
  = index_series [ [ [[Sample.px 2; Sample.px 7]; [MVal 9 true; Sample.px 3]];
                     [[Sample.px 3; Sample.px 8]; [Sample.px 4; Sample.px 5]];
                     [[Sample.px 0; Sample.px 1]; [Sample.px 0; Sample.px 0]] ] ].
Proof.
  apply masked_data_unused. constructor; [|constructor].
  eexists _, _, _, _, _. split; [reflexivity|]. split; [reflexivity|].
  split; repeat constructor; discriminate.
Defined.

(** * Further concrete runs *)

(** A pixel with red 0 and nir 0. *)
Lemma ndvi_zero_sum_masked_witness :
  exists v, at3 (compute_ndvi [Sample.img1 0 0 0]) 0 0 0 = Some v /\ m_mask v = true.
Proof.
  apply (ndvi_zero_sum_masked [Sample.img1 0 0 0] 0 0 0 (Sample.px 0) (Sample.px 0));
    reflexivity.
Defined.

(** Masking the 2 x 2 sample image twice. *)
Lemma mask_clouds_idempotent_witness :
  has_shape 1 3 2 2 (mask_clouds [Sample.img22])
  /\ mask_clouds (mask_clouds [Sample.img22]) = mask_clouds [Sample.img22].
Proof.
  apply (mask_clouds_idempotent 1 3 2 2 [Sample.img22]).
  split; [reflexivity|]. repeat constructor.
Defined.

(** The 2 x 2 sample image has positive red and nir values. *)
Lemma index_series_bounded_witness :
  Forall (fun v => m_mask v = false -> -1 <= m_data v <= 1)%Q (index_series [Sample.img22]).
Proof.
  apply (index_series_bounded 1 3 2 2 [Sample.img22]).
  - split; [reflexivity|]. repeat constructor.
  - repeat constructor; discriminate.
Defined.

Lemma max_ndvi_bounded_witness :
  exists r, max_ndvi [Sample.img22; Sample.img22] = inr r
    /\ Forall (Forall (fun v => m_mask v = false -> -1 <= m_data v <= 1)%Q) r.
Proof.
  apply (max_ndvi_bounded 2 3 2 2 [Sample.img22; Sample.img22]).
  - split; [reflexivity|]. repeat constructor.
  - lia.
  - repeat constructor; discriminate.
Defined.

(** The second pixel of the sample row is masked on both days. *)
Lemma max_composite_mask_witness :
  exists r v, ma_max0 Scenario.days = inr r /\ at2 r 0 1 = Some v
    /\ m_mask v = true /\ m_data v = default_fill_value.
Proof.
  eexists _, _. split; [vm_compute; reflexivity|]. split; [vm_compute; reflexivity|].
  destruct (max_composite_mask Scenario.days [[MVal (1 # 2) false; MVal default_fill_value true]]
              0 1 (MVal default_fill_value true) eq_refl eq_refl) as [Hiff Hfill].
  split; [reflexivity | apply Hfill; reflexivity].
Defined.

(** The first pixel is valid on both days, with 0.2 and 0.5. *)
Lemma max_composite_value_witness :
  exists t p, at3 Scenario.days t 0 0 = Some p /\ m_mask p = false
    /\ (1 # 2 = m_data p)%Q.
Proof.
  destruct (max_composite_value Scenario.days
              [[MVal (1 # 2) false; MVal default_fill_value true]]
              0 0 (MVal (1 # 2) false) eq_refl eq_refl eq_refl) as [Hex _].
  exact Hex.
Defined.

(** A body that holds an identifier only. *)
Lemma flask_missing_geometry_witness :
  FlaskApp.get_field_class Sample.search Sample.mosaic 2 Sample.unpickle
    {[ "fid" := JStr "test-field" ]} Sample.flask_host
  = (inl (KeyError "geometry"), Sample.flask_host).
Proof.
  apply (flask_missing_geometry Sample.search Sample.mosaic 2 Sample.unpickle
           {[ "fid" := JStr "test-field" ]} Sample.flask_host).
  vm_compute. reflexivity.
Defined.



(** A cached file that is no pickle, with the right model in the bucket,
    after two earlier requests. *)
Lemma corrupt_cache_never_refreshed_witness :
  let serve (q : json * nat * string) :=
    get_field_class Sample.search Sample.mosaic 2 Sample.unpickle q.1.1 q.1.2 q.2
      "classifier.joblib" in
  let w0 := run_all (map serve [(Sample.geom, 1%nat, "dl-aws-onboarding");
                                (Sample.geom, 2%nat, "dl-aws-onboarding")])
              Scenario.corrupt in
  (serve (Sample.geom, 3%nat, "dl-aws-onboarding") w0).1
  = inl (LoadFailure "/tmp/models/classifier.joblib")
  /\ calls (serve (Sample.geom, 3%nat, "dl-aws-onboarding") w0).2 = [].
Proof.
  intros serve w0.
  destruct (corrupt_cache_never_refreshed Sample.search Sample.mosaic 2 Sample.unpickle
              Sample.geom 3%nat "dl-aws-onboarding" "classifier.joblib" Scenario.corrupt
              [Byte.x00]
              [(Sample.geom, 1%nat, "dl-aws-onboarding");
               (Sample.geom, 2%nat, "dl-aws-onboarding")]
              ltac:(vm_compute; reflexivity) eq_refl)
    as (Hres & _ & Hcalls).
  split; [exact Hres | exact Hcalls].
Defined.

(** The warm container with both remote stores emptied. *)
Lemma cached_model_ignores_remote_witness :
  (get_field_class Sample.search Sample.mosaic 2 Sample.unpickle
     Sample.geom 7%nat "dl-aws-onboarding" "classifier.joblib"
     (World (dirs Sample.warm) (files Sample.warm) ∅ ∅ (calls Sample.warm))).1
  = (get_field_class Sample.search Sample.mosaic 2 Sample.unpickle
       Sample.geom 7%nat "dl-aws-onboarding" "classifier.joblib" Sample.warm).1.
Proof.
  apply (cached_model_ignores_remote Sample.search Sample.mosaic 2 Sample.unpickle
           Sample.geom 7%nat "dl-aws-onboarding" "classifier.joblib" Sample.warm ∅ ∅).
  eexists. vm_compute. reflexivity.
Defined.

(** A request served from the warm container. *)
Lemma get_field_class_result_witness :
  exists vals dates,
    get_ndvi_tseries Sample.search Sample.mosaic 2 Sample.geom
      Calendar.default_start Calendar.default_end = inr (vals, dates)
    /\ length vals = 30%nat.
Proof.
  destruct (get_field_class_result Sample.search Sample.mosaic 2 Sample.unpickle
              Sample.geom 7%nat "dl-aws-onboarding" "classifier.joblib"
              Sample.warm Sample.warm (Result 1 7%nat)
              ltac:(vm_compute; reflexivity))
    as (_ & v & clf & vals & dates & _ & _ & Hts & _ & Hlen).
  exists vals, dates. split; [exact Hts | exact Hlen].
Defined.

(** A catalog without scenes: the worker is left untouched. *)
Lemma classify_ndvi_series_error_witness :
  classify_ndvi Sample.search_nothing Sample.mosaic 1 Sample.unpickle
    Sample.geom 7%nat Scenario.worker
  = (inl (ValueError "This SceneCollection is empty"), Scenario.worker).
Proof.
  apply (classify_ndvi_series_error Sample.search_nothing Sample.mosaic 1 Sample.unpickle
           Sample.geom 7%nat Scenario.worker).
  vm_compute. reflexivity.
Defined.

(** A worker with an outdated local copy: the stored model replaces it. *)
Lemma classify_ndvi_uses_stored_model_witness :
  let run := classify_ndvi Sample.search Sample.mosaic 2 Sample.unpickle
               Sample.geom 7%nat Scenario.worker in
  exists vals dates,
    get_ndvi_tseries Sample.search Sample.mosaic 2 Sample.geom
      Calendar.default_start Calendar.default_end = inr (vals, dates)
    /\ run.1 = inr (Sample.clf vals, 7%nat)
    /\ files run.2 !! "classifier.joblib" = Some Sample.model_bytes.
Proof.
  intros run. eexists _, _. split; [vm_compute; reflexivity|].
  destruct (classify_ndvi_uses_stored_model Sample.search Sample.mosaic 2 Sample.unpickle
              Sample.geom 7%nat Scenario.worker Sample.model_bytes Sample.clf _ _
              ltac:(vm_compute; reflexivity) ltac:(vm_compute; reflexivity) eq_refl
              ltac:(cbn [Scenario.worker dirs]; set_unfold; tauto))
    as (Hres & Hfiles & _).
  split; [exact Hres|]. fold run in Hfiles. rewrite Hfiles. apply lookup_insert_eq.
Defined.

(** Twenty tasks over the frame of their fields, no field repeated. *)
Lemma collect_frame_witness :
  raised (collect Sample.tasks Sample.df) = None
  /\ (df_end (collect Sample.tasks Sample.df)).*1 = Sample.df.*1
  /\ length (failed_tasks (collect Sample.tasks Sample.df)) = 2%nat.
Proof.
  destruct (collect_frame Sample.tasks Sample.df
              ltac:(apply (bool_decide_unpack _); vm_compute; exact I))
    as (Hruns & _ & Hindex & Hend).
  assert (Hnone : raised (collect Sample.tasks Sample.df) = None).
  { apply Hruns. apply (bool_decide_unpack _). vm_compute. exact I. }
  split; [exact Hnone|]. split; [exact Hindex|].
  destruct (Hend Hnone) as [_ Hfailed]. rewrite Hfailed. vm_compute. reflexivity.
Defined.

(** The twenty tasks completing in submission order and in reverse. *)
Lemma collect_order_independent_witness :
  df_end (collect Sample.tasks Sample.df) = df_end (collect (reverse Sample.tasks) Sample.df).
Proof.
  apply (collect_order_independent Sample.tasks (reverse Sample.tasks) Sample.df).
  - symmetry. apply reverse_Permutation.
  - apply (bool_decide_unpack _). vm_compute. exact I.
  - assert (Hone : Forall (fun r : Z * nat => r.1 = 1) (successes Sample.tasks))
      by (apply (bool_decide_unpack _); vm_compute; exact I).
    intros r r' Hr Hr' _.
    rewrite (proj1 (Forall_forall _ _) Hone r Hr).
    by rewrite (proj1 (Forall_forall _ _) Hone r' Hr').
Defined.

(** Three finished tasks over the fields 1000 and 1001. *)
Lemma fan_out_attribution_witness :
  (df_end (collect Scenario.completed [(1000%nat, 0); (1001%nat, 0)])).*1
  = [1000%nat; 1001%nat].
Proof.
  apply (fan_out_attribution Sample.search Sample.mosaic 2 Sample.unpickle
           Scenario.runs Scenario.completed [1000%nat; 1001%nat]).
  - reflexivity.
  - apply (bool_decide_unpack _). vm_compute. exact I.
Defined.
